(** * Belgian real-estate dashboard: the data pipeline of [app.py]

    A shallow embedding of [load_data], [get_coordinates],
    [enrich_with_coords] and [main], together with the part of Python and
    pandas they rely on: [str.replace], [str.strip], [pandas.to_numeric],
    and data frames as mutable objects addressed by reference. *)

From Stdlib Require Import ZArith NArith QArith Ascii String DecimalString DecimalPos.
From stdpp Require Import base option list gmap.

#[local] Open Scope N_scope.
#[local] Open Scope list_scope.
#[local] Open Scope stdpp_scope.

(** ** Python text *)

Module Text.

(** A Python [str] is a sequence of Unicode code points, a [list N].
    Source literals are written as UTF-8 text and decoded once, so that
    the euro sign is the single code point U+20AC it is in Python. *)
Fixpoint utf8_decode (pending : nat) (acc : N) (bytes : list N) : list N :=
  match bytes with
  | [] => []
  | b :: rest =>
      match pending with
      | S k =>
          let acc' := acc * 64 + b mod 64 in
          match k with
          | O => acc' :: utf8_decode O 0 rest
          | S _ => utf8_decode k acc' rest
          end
      | O =>
          if b <? 128 then b :: utf8_decode O 0 rest
          else if b <? 224 then utf8_decode 1%nat (b mod 32) rest
          else if b <? 240 then utf8_decode 2%nat (b mod 16) rest
          else utf8_decode 3%nat (b mod 8) rest
      end
  end.

Definition py (s : string) : list N :=
  utf8_decode O 0 (map N_of_ascii (list_ascii_of_string s)).

(** [s.startswith(p)] *)
Fixpoint startswith (p s : list N) : bool :=
  match p, s with
  | [], _ => true
  | _ :: _, [] => false
  | a :: p', b :: s' => (a =? b) && startswith p' s'
  end.

(** [s.replace(old, new)] for a non-empty [old]: scan from the left; at
    a match emit [new] and skip the matched characters ([skip] counts
    the ones still to be dropped), otherwise copy one character. *)
Fixpoint replace_scan (old new : list N) (skip : nat) (s : list N) : list N :=
  match s with
  | [] => []
  | c :: s' =>
      match skip with
      | S k => replace_scan old new k s'
      | O =>
          if startswith old s
          then new ++ replace_scan old new (Nat.pred (length old)) s'
          else c :: replace_scan old new O s'
      end
  end.

(** [s.replace(old, new)]; with an empty [old] Python puts [new] before
    every character and at the end. *)
Definition replace (old new s : list N) : list N :=
  match old with
  | [] => new ++ flat_map (fun c => c :: new) s
  | _ :: _ => replace_scan old new O s
  end.

(** [c.isspace()]: the characters [str.strip()] removes. *)
Definition isspace (c : N) : bool :=
  ((9 <=? c) && (c <=? 13)) || ((28 <=? c) && (c <=? 32))
  || (c =? 133) || (c =? 160) || (c =? 5760)
  || ((8192 <=? c) && (c <=? 8202))
  || (c =? 8232) || (c =? 8233) || (c =? 8239) || (c =? 8287) || (c =? 12288).

Fixpoint lstrip (s : list N) : list N :=
  match s with
  | [] => []
  | c :: s' => if isspace c then lstrip s' else s
  end.

Definition rstrip (s : list N) : list N := reverse (lstrip (reverse s)).

(** [s.strip()] *)
Definition strip (s : list N) : list N := rstrip (lstrip s).

(** [str(z)] for a Python [int]. *)
Definition str_of_int (z : Z) : list N :=
  map N_of_ascii (list_ascii_of_string (NilZero.string_of_int (Z.to_int z))).

End Text.

Import Text.

(** ** Numbers and [pandas.to_numeric] *)

Module Numeric.

(** A number of a numeric column.  [Fin q] is a number whose value is
    exactly [q], whether pandas holds it as an [int64] or as a
    [float64].  [NaN] is pandas' missing value.  [Inexact q] is what
    pandas makes of a numeral that denotes [q] but lies outside the
    range this model evaluates: in general [q] rounded to binary64, an
    infinity when [q] overflows; the model says nothing more about such
    a value. *)
Inductive float64 : Type :=
| Fin (q : Q)
| Inf (negative : bool)
| NaN
| Inexact (q : Q).

Definition is_missing (x : float64) : bool :=
  match x with NaN => true | _ => false end.

Definition isdigit (c : N) : bool := (48 <=? c) && (c <=? 57).

(** C's [isspace] in the "C" locale. *)
Definition isspace_ascii (c : N) : bool := (c =? 32) || ((9 <=? c) && (c <=? 13)).

Fixpoint skip_space (p : list N) : list N :=
  match p with
  | [] => []
  | c :: p' => if isspace_ascii c then skip_space p' else p
  end.

(** An optional ['-'] or ['+']. *)
Definition read_sign (p : list N) : bool * list N :=
  match p with
  | [] => (false, p)
  | c :: p' =>
      if c =? 45 then (true, p')
      else if c =? 43 then (false, p')
      else (false, p)
  end.

(** The digit loop [number = number * 10 + (c - '0')], which also counts
    the digits it consumed.  The digits are read here as the integer
    they write; [scale] decides whether that integer is within what
    pandas holds exactly. *)
Fixpoint read_digits (number : N) (count : nat) (p : list N) : N * nat * list N :=
  match p with
  | [] => (number, count, p)
  | c :: p' =>
      if isdigit c then read_digits (number * 10 + (c - 48)) (S count) p'
      else (number, count, p)
  end.

(** Integers up to [2 ^ 53] in magnitude are exact both as [int64] and
    as [float64]. *)
Definition exact_bound : Z := 2 ^ 53.

(** [number * 10 ^ exponent], signed.  The result is exact when the
    digits read and the value are integers within [exact_bound] and the
    power of ten is at most [10 ^ 22]: then every step of the scaling is
    an exact binary64 operation.  Anything else is left unevaluated. *)
Definition scale (negative : bool) (number : N) (exponent : Z) : float64 :=
  let m := (if negative then - Z.of_N number else Z.of_N number)%Z in
  let q := Qred (if (0 <=? exponent)%Z
                 then Qmake (m * 10 ^ exponent) 1
                 else Qmake m (Z.to_pos (10 ^ (- exponent)))) in
  if (Z.of_N number <=? exact_bound)%Z && (Z.abs exponent <=? 22)%Z
     && (Z.pos (Qden q) =? 1)%Z && (Z.abs (Qnum q) <=? exact_bound)%Z
  then Fin q
  else Inexact q.

(** The scanner keeps the first 17 digits of a numeral, leading zeros
    among them, and only counts the rest. *)
Definition max_digits : nat := 17.

(** A numeral of more than [max_digits] digits is left unevaluated. *)
Definition within_digits (count : nat) (x : float64) : float64 :=
  match x with
  | Fin q => if (count <=? max_digits)%nat then Fin q else Inexact q
  | _ => x
  end.

(** An integer as a float ([float(z)], or a column of [int64] taken as
    [float64]): exact within [exact_bound], unevaluated beyond. *)
Definition float_of_int (z : Z) : float64 :=
  if (Z.abs z <=? exact_bound)%Z then Fin (inject_Z z) else Inexact (inject_Z z).

(** The decimal scanner behind [to_numeric] (pandas' [xstrtod] with
    decimal point ['.'], exponent mark ['e'] and no thousands
    separator): leading blanks, a sign, integer digits, an optional
    fraction, at least one digit in all, an optional exponent that is
    put back when no digit follows it, trailing blanks.  It returns the
    value and what is left of the text, or [None] when there is no
    digit. *)
Definition xstrtod (s : list N) : option (float64 * list N) :=
  let '(negative, p) := read_sign (skip_space s) in
  let '(number, num_digits, p) := read_digits 0 O p in
  let '(number, num_decimals, p) :=
    match p with
    | c :: p' => if c =? 46 then read_digits number O p' else (number, O, p)
    | [] => (number, O, p)
    end in
  if (num_digits + num_decimals =? 0)%nat then None
  else
    let '(exponent, p) :=
      match p with
      | c :: p' =>
          if (c =? 101) || (c =? 69) then
            let '(eneg, p1) := read_sign p' in
            let '(n, exp_digits, p2) := read_digits 0 O p1 in
            if (exp_digits =? 0)%nat then (0%Z, p)
            else ((if eneg then - Z.of_N n else Z.of_N n)%Z, p2)
          else (0%Z, p)
      | [] => (0%Z, p)
      end in
    Some (within_digits (num_digits + num_decimals)
            (scale negative number (exponent - Z.of_nat num_decimals)),
          skip_space p).

(** ASCII lower case, for the case-blind comparison of the infinity
    words. *)
Definition tolower (c : N) : N := if (65 <=? c) && (c <=? 90) then c + 32 else c.

Definition strcasecmp_eq (s word : list N) : bool :=
  bool_decide (map tolower s = word).

(** One text to one number ([floatify]): the scanner must consume the
    whole text; otherwise the text may still be one of the infinity
    words.  [None] is the parse error. *)
Definition floatify (s : list N) : option float64 :=
  match xstrtod s with
  | Some (x, []) => Some x
  | _ =>
      if strcasecmp_eq s (py "inf") || strcasecmp_eq s (py "+inf")
         || strcasecmp_eq s (py "infinity") || strcasecmp_eq s (py "+infinity")
      then Some (Inf false)
      else if strcasecmp_eq s (py "-inf") || strcasecmp_eq s (py "-infinity")
      then Some (Inf true)
      else None
  end.

(** The [errors=] argument of [to_numeric]. *)
Inductive errors_mode : Type := errors_raise | errors_coerce.

(** One element of [to_numeric]: the empty text is a missing value; a
    text that does not parse is an error under [errors="raise"] and a
    missing value under [errors="coerce"]. *)
Definition convert_numeric (errors : errors_mode) (s : list N) : option float64 :=
  match s with
  | [] => Some NaN
  | _ :: _ =>
      match floatify s with
      | Some x => Some x
      | None =>
          match errors with
          | errors_coerce => Some NaN
          | errors_raise => None
          end
      end
  end.

(** [pd.to_numeric(texts, errors=...)] on a series of [str]; [None] is
    the [ValueError] of the first text that does not parse. *)
Fixpoint to_numeric (errors : errors_mode) (texts : list (list N)) : option (list float64) :=
  match texts with
  | [] => Some []
  | s :: rest =>
      match convert_numeric errors s with
      | None => None
      | Some x =>
          match to_numeric errors rest with
          | None => None
          | Some xs => Some (x :: xs)
          end
      end
  end.

End Numeric.

Import Numeric.

(** ** Data frames *)

Module Frame.

(** What a cell of a frame read by [pandas.read_csv] can hold.  The
    missing value of a column of text is the float [NaN]. *)
Inductive cell : Type :=
| VStr (s : list N)
| VInt (z : Z)
| VFloat (x : float64)
| VBool (b : bool).

(** Python's conversions between a float and its text are kept
    abstract: [repr] of a finite float, the shortest round-trip decimal
    of a binary64 value; the text of a number the model leaves
    unevaluated; and [float(s)] of a [str], where [None] is its
    [ValueError]. *)
Class FloatRepr := {
  float_repr : Q -> list N;
  inexact_repr : Q -> list N;
  float_of_str : list N -> option float64
}.

(** [str(c)], which is also what [Series.astype(str)] puts in each
    cell. *)
Definition py_str `{FloatRepr} (c : cell) : list N :=
  match c with
  | VStr s => s
  | VInt z => str_of_int z
  | VFloat (Fin q) => float_repr q
  | VFloat (Inexact q) => inexact_repr q
  | VFloat (Inf false) => py "inf"
  | VFloat (Inf true) => py "-inf"
  | VFloat NaN => py "nan"
  | VBool true => py "True"
  | VBool false => py "False"
  end.

(** A frame: a default index [0 .. nrows - 1] and the columns in their
    order, each with one cell per row.  Column labels are distinct, as
    [read_csv] delivers them. *)
Record DataFrame : Type := mkFrame {
  nrows : nat;
  columns : list (list N * list cell)
}.

Definition labels (d : DataFrame) : list (list N) := (columns d).*1.

(** The dtypes of the columns of such a frame. *)
Inductive dtype : Type := dtype_int64 | dtype_float64 | dtype_bool | dtype_object.

Definition is_int (c : cell) : bool :=
  match c with VInt _ => true | _ => false end.

Definition is_number (c : cell) : bool :=
  match c with VInt _ | VFloat _ => true | _ => false end.

Definition is_bool (c : cell) : bool :=
  match c with VBool _ => true | _ => false end.

(** The dtype of a column with these cells: integers, numbers with a
    float among them, booleans, or objects (text, or a mixture). *)
Definition column_dtype (v : list cell) : dtype :=
  if forallb is_int v then dtype_int64
  else if forallb is_number v then dtype_float64
  else if forallb is_bool v then dtype_bool
  else dtype_object.

(** The dtype that can hold two columns side by side: integers and
    floats meet in [float64], equal dtypes in themselves, anything else
    in [object]. *)
Definition common_dtype (a b : dtype) : dtype :=
  match a, b with
  | dtype_int64, dtype_int64 => dtype_int64
  | dtype_int64, dtype_float64 => dtype_float64
  | dtype_float64, dtype_int64 => dtype_float64
  | dtype_float64, dtype_float64 => dtype_float64
  | dtype_bool, dtype_bool => dtype_bool
  | _, _ => dtype_object
  end.

(** The dtype of [df.values], the array [iterrows] takes its rows
    from. *)
Definition values_dtype (d : DataFrame) : dtype :=
  match columns d with
  | [] => dtype_object
  | (_, v) :: rest =>
      foldl (fun t c => common_dtype t (column_dtype c.2)) (column_dtype v) rest
  end.

(** A cell as a row of [iterrows] holds it: in a frame of integer and
    float columns only, the rows are [float64] and an integer becomes a
    float; otherwise the cell is what the frame holds. *)
Definition row_cell (d : DataFrame) (c : cell) : cell :=
  match values_dtype d, c with
  | dtype_float64, VInt z => VFloat (float_of_int z)
  | _, _ => c
  end.

Definition wf (d : DataFrame) : Prop :=
  NoDup (labels d) /\ Forall (fun c => length c.2 = nrows d) (columns d).

#[export] Instance wf_dec (d : DataFrame) : Decision (wf d).
Proof. unfold wf. apply _. Defined.

Fixpoint assoc (k : list N) (cols : list (list N * list cell)) : option (list cell) :=
  match cols with
  | [] => None
  | (k', v) :: rest => if bool_decide (k' = k) then Some v else assoc k rest
  end.

(** The column labelled [k], if any. *)
Definition column (d : DataFrame) (k : list N) : option (list cell) :=
  assoc k (columns d).

(** The cell of row [i] in column [k]. *)
Definition at_ (d : DataFrame) (i : nat) (k : list N) : option cell :=
  column d k ≫= (.!! i).

Fixpoint assign (k : list N) (v : list cell) (cols : list (list N * list cell))
  : list (list N * list cell) :=
  match cols with
  | [] => [(k, v)]
  | (k', v') :: rest =>
      if bool_decide (k' = k) then (k', v) :: rest else (k', v') :: assign k v rest
  end.

(** [d[k] = v] on the value of a frame: an existing column is
    overwritten where it stands, a new one is added last. *)
Definition set_column (d : DataFrame) (k : list N) (v : list cell) : DataFrame :=
  mkFrame (nrows d) (assign k v (columns d)).

(** The frame without the columns labelled in [ks]. *)
Definition without (d : DataFrame) (ks : list (list N)) : DataFrame :=
  mkFrame (nrows d) (filter (fun c => c.1 ∉ ks) (columns d)).

End Frame.

Import Frame.

(** ** The interpreter state: files, objects, and the page *)

Module Runtime.

(** An absolute path is the list of its components below the root.
    [p.parent]; the root is its own parent. *)
Definition parent (p : list (list N)) : list (list N) := removelast p.

(** What the file system holds at a path.  A file is represented by
    what [pandas.read_csv] makes of it: a table, or nothing when pandas
    cannot read it as one (an empty file, bytes that are not UTF-8,
    rows it cannot split). *)
Inductive node : Type :=
| Directory
| File (table : option DataFrame).

(** A plotly express bar figure: the frame and the arguments it was
    built from, then the axis titles of [update_layout]. *)
Record figure : Type := mkFigure {
  fig_data : DataFrame;
  fig_x : list N;
  fig_y : list N;
  fig_color : list N;
  fig_labels : list (list N * list N);
  fig_title : list N;
  xaxis_title : list N;
  yaxis_title : list N
}.

(** The children of a folium map, with their locations as the floats
    folium has checked and converted. *)
Inductive layer : Type :=
| Marker (location : float64 * float64) (popup : list N)
| PolyLine (locations : list (float64 * float64)) (color : list N) (weight : Z).

Record folium_map : Type := mkMap {
  map_location : float64 * float64;
  zoom_start : Z;
  layers : list layer
}.

(** What the program hands to the page, in call order. *)
Inductive ui_event : Type :=
| set_page_config (page_title layout : list N)
| title (text : list N)
| header (text : list N)
| dataframe (data : DataFrame)
| plotly_chart (fig : figure) (use_container_width : bool)
| folium_static (m : folium_map) (width height : Z).

(** Frames are mutable objects: the heap holds them, a reference is an
    index into it, and a new object goes at the end. *)
Record world : Type := mkWorld {
  files : gmap (list (list N)) node;
  heap : list DataFrame;
  page : list ui_event
}.

(** The exceptions of the run.  [ReadError p] stands for whichever
    error [read_csv] raises on a file it cannot read as a table
    ([EmptyDataError], [UnicodeDecodeError], [ParserError]): the model
    does not tell them apart. *)
Inductive exn : Type :=
| KeyError (key : list N)
| ValueError
| TypeError
| OverflowError
| FileNotFoundError (p : list (list N))
| IsADirectoryError (p : list (list N))
| ReadError (p : list (list N))
| InvalidRef.

Inductive result (A : Type) : Type :=
| Ok (a : A)
| Raise (e : exn).

Arguments Ok {A} a.
Arguments Raise {A} e.

(** A computation reads and updates the world and returns or raises;
    the world it leaves behind is kept in both cases. *)
Definition M (A : Type) : Type := world -> result A * world.

#[export] Instance M_ret : MRet M := fun A a w => (Ok a, w).

#[export] Instance M_bind : MBind M := fun A B f m w =>
  match m w with
  | (Ok a, w') => f a w'
  | (Raise e, w') => (Raise e, w')
  end.

Definition raise {A} (e : exn) : M A := fun w => (Raise e, w).

Definition lift {A} (r : result A) : M A := fun w => (r, w).

(** The object behind a reference.  [InvalidRef] is not a Python
    exception: it is the outcome for a reference that names no object,
    which no run of the program produces. *)
Definition deref (r : nat) : M DataFrame := fun w =>
  match heap w !! r with
  | Some d => (Ok d, w)
  | None => (Raise InvalidRef, w)
  end.

Definition store (r : nat) (d : DataFrame) : M unit := fun w =>
  (Ok tt, mkWorld (files w) (<[r := d]> (heap w)) (page w)).

Definition alloc (d : DataFrame) : M nat := fun w =>
  (Ok (length (heap w)), mkWorld (files w) (heap w ++ [d]) (page w)).

Definition emit (e : ui_event) : M unit := fun w =>
  (Ok tt, mkWorld (files w) (heap w) (page w ++ [e])).

(** [p.exists()]: true for a file and for a directory. *)
Definition path_exists (p : list (list N)) : M bool := fun w =>
  (Ok (bool_decide (is_Some (files w !! p))), w).

(** [pd.read_csv(p)]: a new frame, or the error of a missing path, of a
    directory, or of a file that cannot be read as a table.  For the
    last pandas has several classes (a parser error, an empty-data
    error, a decoding error); [ReadError] stands for whichever it
    raises. *)
Definition read_csv (p : list (list N)) : M nat := fun w =>
  match files w !! p with
  | None => (Raise (FileNotFoundError p), w)
  | Some Directory => (Raise (IsADirectoryError p), w)
  | Some (File None) => (Raise (ReadError p), w)
  | Some (File (Some d)) => alloc d w
  end.

(** [df[k]], read. *)
Definition getitem (df : nat) (k : list N) : M (list cell) :=
  d ← deref df;
  match column d k with
  | Some v => mret v
  | None => raise (KeyError k)
  end.

(** [df[k] = v]: the object is updated in place.  The values must have
    one cell per row; both callers pass a list as long as the frame. *)
Definition setitem (df : nat) (k : list N) (v : list cell) : M unit :=
  d ← deref df;
  if bool_decide (length v = nrows d) then store df (set_column d k v)
  else raise ValueError.

(** [df.copy()]: a new object with the same contents. *)
Definition copy (df : nat) : M nat :=
  d ← deref df;
  alloc d.

(** [df.drop(columns=ks)]: a new object without these columns; every
    label must be one of the frame's. *)
Definition drop (df : nat) (ks : list (list N)) : M nat :=
  d ← deref df;
  match list_find (fun k => column d k = None) ks with
  | Some (_, k) => raise (KeyError k)
  | None => alloc (without d ks)
  end.

End Runtime.

Import Runtime.

(** ** The program *)

Module App.

Section Loader.

Context `{FloatRepr}.

(** The [cleaned] expression of [load_data], on one cell: [astype(str)],
    the three literal replacements, then [strip]. *)
Definition clean (text : list N) : list N :=
  strip (replace (py " ") [] (replace (py ",") [] (replace (py "€") [] text))).

Definition cleaned (col : list cell) : list (list N) :=
  clean <$> (py_str <$> col).

Definition load_data (csv_path : list (list N)) : M nat :=
  df ← read_csv csv_path;
  col ← getitem df (py "Latest profit after tax (€)");
  profit ← lift (match to_numeric errors_coerce (cleaned col) with
                 | Some xs => Ok xs
                 | None => Raise ValueError
                 end);
  setitem df (py "Profit") (VFloat <$> profit);;
  mret df.

End Loader.

Definition get_coordinates : gmap (list N) (float64 * float64) :=
  list_to_map [
    (py "Waterloo", (Fin 50.7219, Fin 4.3997));
    (py "Brussels", (Fin 50.8466, Fin 4.3528));
    (py "Strombeek-Bever", (Fin 50.9050, Fin 4.3681));
    (py "Brussels (Uccle)", (Fin 50.7997, Fin 4.3476));
    (py "Sint-Niklaas", (Fin 51.1642, Fin 4.1439));
    (py "Brussels (Ixelles)", (Fin 50.8287, Fin 4.3676));
    (py "Brussels (1000)", (Fin 50.8466, Fin 4.3528))
  ].

(** [d.get(key)] for a dictionary with [str] keys and any cell as the
    key asked for: a cell that is not a [str] equals no key. *)
Definition dict_get {V} (d : gmap (list N) V) (key : cell) : option V :=
  match key with
  | VStr s => d !! s
  | _ => None
  end.

(** The loop of [enrich_with_coords]: [coords.get(loc, coords.get("Brussels"))],
    unpacked into [lat, lon] (unpacking [None] is a [TypeError]) and
    appended to the two lists. *)
Fixpoint enrich_loop (coords : gmap (list N) (float64 * float64)) (locs : list cell)
    (latitudes longitudes : list cell) : result (list cell * list cell) :=
  match locs with
  | [] => Ok (latitudes, longitudes)
  | loc :: rest =>
      match from_option Some (coords !! py "Brussels") (dict_get coords loc) with
      | Some (lat, lon) =>
          enrich_loop coords rest (latitudes ++ [VFloat lat]) (longitudes ++ [VFloat lon])
      | None => Raise TypeError
      end
  end.

Definition enrich_with_coords (df : nat) : M nat :=
  let coords := get_coordinates in
  locs ← getitem df (py "Locality");
  '(latitudes, longitudes) ← lift (enrich_loop coords locs [] []);
  df ← copy df;
  setitem df (py "Latitude") latitudes;;
  setitem df (py "Longitude") longitudes;;
  mret df.

Section Presenter.

Context `{FloatRepr}.

(** [px.bar] needs the columns it is asked to plot. *)
Definition build_bar_chart (df : nat) : M unit :=
  d ← deref df;
  match list_find (fun k => column d k = None) [py "Name"; py "Profit"] with
  | Some _ => raise ValueError
  | None =>
      let bar := mkFigure d (py "Name") (py "Profit") (py "Profit")
                   [(py "Profit", py "Profit (€)")]
                   (py "Latest Profit After Tax by Company")
                   (py "Company") (py "Profit (€)") in
      emit (plotly_chart bar true)
  end.

(** [row[k]] for the row [i] that [iterrows] yields. *)
Definition row_get (d : DataFrame) (i : nat) (k : list N) : result cell :=
  match at_ d i k with
  | Some c => Ok (row_cell d c)
  | None => Raise (KeyError k)
  end.

Definition center : float64 * float64 := (Fin 50.8466, Fin 4.3528).

(** folium's check of one coordinate of a location: [float(c)] must
    succeed and must not be [NaN], or [ValueError] is raised; an integer
    too large for a float raises [OverflowError]. *)
Definition location_float (c : cell) : result float64 :=
  match c with
  | VFloat NaN => Raise ValueError
  | VFloat x => Ok x
  | VInt z =>
      if (Z.abs z <? 2 ^ 1024 - 2 ^ 970)%Z then Ok (float_of_int z)
      else Raise OverflowError
  | VBool b => Ok (Fin (if b then 1 else 0))
  | VStr s =>
      match float_of_str s with
      | Some NaN => Raise ValueError
      | Some x => Ok x
      | None => Raise ValueError
      end
  end.

(** The body of the loop of [build_map]: the four cells of the row, the
    popup, the marker, whose location folium checks, and the line. *)
Definition map_row (d : DataFrame) (i : nat) : result (list layer) :=
  match row_get d i (py "Latitude") with
  | Raise e => Raise e
  | Ok lat =>
  match row_get d i (py "Longitude") with
  | Raise e => Raise e
  | Ok lon =>
  match row_get d i (py "Name") with
  | Raise e => Raise e
  | Ok name =>
  match row_get d i (py "Address") with
  | Raise e => Raise e
  | Ok address =>
      let popup := py "<b>" ++ py_str name ++ py "</b><br>" ++ py_str address in
      match location_float lat with
      | Raise e => Raise e
      | Ok y =>
      match location_float lon with
      | Raise e => Raise e
      | Ok x =>
          Ok [Marker (y, x) popup; PolyLine [center; (y, x)] (py "blue") 1]
      end end
  end end end end.

Fixpoint map_rows (d : DataFrame) (rows : list nat) (m : list layer) : result (list layer) :=
  match rows with
  | [] => Ok m
  | i :: rest =>
      match map_row d i with
      | Raise e => Raise e
      | Ok added => map_rows d rest (m ++ added)
      end
  end.

Definition build_map (df : nat) : M unit :=
  d ← deref df;
  m ← lift (map_rows d (seq 0 (nrows d)) []);
  emit (folium_static (mkMap center 8 m) 700 500).

Definition csv_name : list N := py "belgian_real_estate_agents.csv".

(** [main], for the resolved path [script] of the program file. *)
Definition main (script : list (list N)) : M unit :=
  emit (set_page_config (py "Belgian Real‑estate Agents") (py "wide"));;
  emit (title (py "Belgian Real‑estate Agents: Data Overview"));;
  let script_dir := parent script in
  let local_csv := script_dir ++ [csv_name] in
  let parent_csv := parent script_dir ++ [csv_name] in
  found ← path_exists local_csv;
  let csv_path := if (found : bool) then local_csv else parent_csv in
  df ← load_data csv_path;
  df ← enrich_with_coords df;
  emit (header (py "Data Table"));;
  shown ← drop df [py "Latitude"; py "Longitude"];
  table ← deref shown;
  emit (dataframe table);;
  emit (header (py "Latest Profit After Tax (Euro)"));;
  build_bar_chart df;;
  emit (header (py "Map of Agents with Connectors"));;
  build_map df.

End Presenter.

End App.

Import App.

(** ** Vocabulary of the statements *)

(** The three characters the loader deletes. *)
Definition currency_marks : list N := py "€, ".

(** What [to_numeric(..., errors="coerce")] makes of one text. *)
Definition coerced (s : list N) : float64 := default NaN (floatify s).

(** The label of the profit text column. *)
Abbreviation profit_label := (py "Latest profit after tax (€)") (only parsing).

(** The number a decimal numeral denotes. *)
Definition decimal_value (ds : list N) : N :=
  foldl (fun acc c => acc * 10 + (c - 48)) 0 ds.

(** A text made of decimal digits only. *)
Definition digits (ds : list N) : Prop := Forall (fun c => isdigit c = true) ds.

(** The table's "Brussels" entry, the fallback. *)
Definition brussels : float64 * float64 := (Fin 50.8466, Fin 4.3528).

(** The pair the enricher gives to one locality. *)
Definition coordinates_of (loc : cell) : float64 * float64 :=
  default brussels (dict_get get_coordinates loc).

(** The frame [enrich_with_coords] builds from the frame [d]. *)
Definition enriched (d : DataFrame) (locs : list cell) : DataFrame :=
  set_column
    (set_column d (py "Latitude") ((fun loc => VFloat (coordinates_of loc).1) <$> locs))
    (py "Longitude") ((fun loc => VFloat (coordinates_of loc).2) <$> locs).

(** The first candidate of [main]: next to the program. *)
Definition local_csv (script : list (list N)) : list (list N) :=
  parent script ++ [csv_name].

(** The second candidate: in the parent directory. *)
Definition parent_csv (script : list (list N)) : list (list N) :=
  parent (parent script) ++ [csv_name].

(** The labels [main] drops for the table view. *)
Definition coordinate_labels : list (list N) := [py "Latitude"; py "Longitude"].

(** The [st.dataframe] calls among the page events. *)
Definition is_table_view (e : ui_event) : Prop :=
  match e with dataframe _ => True | _ => False end.

(** A computation that only adds to the page, and no table view. *)
Definition draws_only {A} (m : M A) : Prop :=
  forall w, files (m w).2 = files w /\ heap (m w).2 = heap w /\
    exists rest, page (m w).2 = page w ++ rest /\ Forall (fun e => ~ is_table_view e) rest.

Section Outcomes.

Context `{FloatRepr}.

(** The frame [load_data] leaves behind for the table [d] of the file. *)
Definition loaded (d : DataFrame) (col : list cell) : DataFrame :=
  set_column d (py "Profit") (VFloat <$> (coerced <$> cleaned col)).

(** The frame handed to the table view. *)
Definition shown (d : DataFrame) (col locs : list cell) : DataFrame :=
  without (enriched (loaded d col) locs) coordinate_labels.

(** The world [main] has built once the table view is on the page. *)
Definition after_table (w : world) (d : DataFrame) (col locs : list cell) : world :=
  mkWorld (files w)
    (heap w ++ [loaded d col; enriched (loaded d col) locs; shown d col locs])
    (page w ++ [set_page_config (py "Belgian Real‑estate Agents") (py "wide");
                title (py "Belgian Real‑estate Agents: Data Overview");
                header (py "Data Table");
                dataframe (shown d col locs)]).

(** What [main] does after the table view. *)
Definition charts (df : nat) : M unit :=
  emit (header (py "Latest Profit After Tax (Euro)"));;
  build_bar_chart df;;
  emit (header (py "Map of Agents with Connectors"));;
  build_map df.

End Outcomes.

(** ** A sample run *)

Module Sample.

(** The sample table holds no finite float and no location given as
    text, so neither conversion is ever asked for; the instance only has
    to exist. *)
Definition repr : FloatRepr :=
  {| float_repr := fun _ => py "0.0";
     inexact_repr := fun _ => py "0.0";
     float_of_str := fun _ => None |}.

(** Four agencies: a known locality, an unknown one, a missing one, and
    a profit column with the texts of the specification. *)
Definition table : DataFrame := mkFrame 4 [
  (py "Name", [VStr (py "Alpha"); VStr (py "Beta"); VStr (py "Gamma"); VStr (py "Delta")]);
  (py "Address", [VStr (py "Rue A 1"); VStr (py "Rue B 2"); VFloat NaN; VStr (py "Rue D 4")]);
  (py "Locality", [VStr (py "Waterloo"); VStr (py "Unknown Town"); VFloat NaN;
                   VStr (py "Brussels (Uccle)")]);
  (py "Latest profit after tax (€)",
     [VStr (py "€1,234 "); VStr (py "€ 45.000"); VStr (py "N/A"); VStr (py "12,34")])
].

Definition profit_texts : list cell :=
  [VStr (py "€1,234 "); VStr (py "€ 45.000"); VStr (py "N/A"); VStr (py "12,34")].

Definition localities : list cell :=
  [VStr (py "Waterloo"); VStr (py "Unknown Town"); VFloat NaN; VStr (py "Brussels (Uccle)")].

(** The program at [/srv/app/app.py]. *)
Definition script : list (list N) := [py "srv"; py "app"; py "app.py"].

Definition beside : list (list N) := [py "srv"; py "app"; csv_name].

Definition above : list (list N) := [py "srv"; csv_name].

(** The data file next to the program, in the parent directory, a
    directory in its place, and no data file at all. *)
Definition world_local : world := mkWorld {[ beside := File (Some table) ]} [] [].

Definition world_parent : world := mkWorld {[ above := File (Some table) ]} [] [].

Definition world_directory : world :=
  mkWorld {[ beside := Directory; above := File (Some table) ]} [] [].

Definition world_empty : world := mkWorld ∅ [] [].

(** The table already in memory, as object 0. *)
Definition world_loaded : world := mkWorld ∅ [table] [].

End Sample.

(** ** Vocabulary of the further properties *)

(** The characters the decimal scanner can consume. *)
Definition scanner_char (c : N) : bool :=
  isdigit c || isspace_ascii c
  || (c =? 43) || (c =? 45) || (c =? 46) || (c =? 101) || (c =? 69).

(** The characters of the infinity words, in either case. *)
Definition infinity_char (c : N) : bool :=
  bool_decide (tolower c ∈ py "+-infinity").

(** A character that can occur in a text [floatify] accepts. *)
Definition numeric_char (c : N) : bool := scanner_char c || infinity_char c.

(** [w'] is [w] with objects added at the end of the heap and events
    added at the end of the page; the files and the objects of [w] are
    as they were. *)
Definition extends (w w' : world) : Prop :=
  files w' = files w /\ heap w `prefix_of` heap w' /\ page w `prefix_of` page w'.

(** The connector of [build_map]: from the centre to a point. *)
Definition connector (location : float64 * float64) : layer :=
  PolyLine [center; location] (py "blue") 1.

(** A coordinate as the enricher writes it: a finite float. *)
Definition finite_float (c : cell) : Prop := exists q, c = VFloat (Fin q).

(** A cell of a float column. *)
Definition float_cell (c : cell) : Prop := exists x, c = VFloat x.

(** The figure [build_bar_chart] draws for a frame. *)
Definition bar_figure (d : DataFrame) : figure :=
  mkFigure d (py "Name") (py "Profit") (py "Profit")
    [(py "Profit", py "Profit (€)")]
    (py "Latest Profit After Tax by Company")
    (py "Company") (py "Profit (€)").

(** [rest] is what is left of [s] after a run of scanner characters. *)
Definition consumed (s rest : list N) : Prop :=
  exists pre, s = pre ++ rest /\ Forall (fun c => scanner_char c = true) pre.

(** A text that does not begin with a whitespace character. *)
Definition starts_clean (t : list N) : Prop :=
  match t with
  | [] => True
  | c :: _ => isspace c = false
  end.

(** A text of digits, euro signs, commas and spaces. *)
Definition currency_text (t : list N) : Prop :=
  Forall (fun c => isdigit c = true \/ c ∈ currency_marks) t.

Section Popups.

Context `{FloatRepr}.

(** The popup of a marker: the name in bold, a line break, the
    address. *)
Definition popup_html (name address : cell) : list N :=
  py "<b>" ++ py_str name ++ py "</b><br>" ++ py_str address.

(** The layers [build_map] adds for row [i], none if a cell is
    missing. *)
Definition row_layers (d : DataFrame) (i : nat) : list layer :=
  match map_row d i with
  | Ok added => added
  | Raise _ => []
  end.

End Popups.

(** The code points of the decimal numeral [d], most significant digit
    first. *)
Definition numeral_codes (d : Decimal.uint) : list N :=
  map N_of_ascii (list_ascii_of_string (NilEmpty.string_of_uint d)).

(** ** More sample data *)

Module MoreSamples.

(** Two located agencies, as the map view gets them. *)
Definition located : DataFrame := mkFrame 2 [
  (py "Name", [VStr (py "Alpha"); VStr (py "Beta")]);
  (py "Address", [VStr (py "Rue A 1"); VStr (py "Rue B 2")]);
  (py "Latitude", [VFloat (Fin 50.7219); VFloat (Fin 50.8466)]);
  (py "Longitude", [VFloat (Fin 4.3997); VFloat (Fin 4.3528)])
].

Definition world_located : world := mkWorld ∅ [located] [].

(** One located agency without a name, and a frame with nothing. *)
Definition nameless : DataFrame := mkFrame 1 [
  (py "Address", [VStr (py "Rue A 1")]);
  (py "Latitude", [VFloat (Fin 50.7219)]);
  (py "Longitude", [VFloat (Fin 4.3997)])
].

Definition blank : DataFrame := mkFrame 0 [].

(** Two agencies, the second without a latitude. *)
Definition gap : DataFrame := mkFrame 2 [
  (py "Name", [VStr (py "Alpha"); VStr (py "Beta")]);
  (py "Address", [VStr (py "Rue A 1"); VStr (py "Rue B 2")]);
  (py "Latitude", [VFloat (Fin 50.7219); VFloat NaN]);
  (py "Longitude", [VFloat (Fin 4.3997); VFloat (Fin 4.3528)])
].

Definition world_gap : world := mkWorld ∅ [gap] [].

(** A frame of numbers only: the name and the address are integers. *)
Definition numeric : DataFrame := mkFrame 1 [
  (py "Name", [VInt 1]);
  (py "Address", [VInt 2]);
  (py "Latitude", [VFloat (Fin 50.7219)]);
  (py "Longitude", [VFloat (Fin 4.3997)])
].

Definition world_nameless : world := mkWorld ∅ [nameless; blank] [].

(** Tables a data file should not hold: no profit text, no locality,
    no address. *)
Definition names_only : DataFrame := mkFrame 1 [(py "Name", [VStr (py "Alpha")])].

Definition no_locality : DataFrame := mkFrame 1 [
  (py "Name", [VStr (py "Alpha")]);
  (py "Latest profit after tax (€)", [VStr (py "€1,234 ")])
].

Definition no_address : DataFrame := mkFrame 1 [
  (py "Name", [VStr (py "Alpha")]);
  (py "Locality", [VStr (py "Waterloo")]);
  (py "Latest profit after tax (€)", [VStr (py "€1,234 ")])
].

(** A profit column read as integers. *)
Definition plain : DataFrame := mkFrame 2 [
  (py "Name", [VStr (py "Alpha"); VStr (py "Beta")]);
  (py "Latest profit after tax (€)", [VInt 1200; VInt (-35)])
].



Definition world_of (local : node) : world :=
  mkWorld {[ Sample.beside := local; Sample.above := File (Some Sample.table) ]} [] [].

End MoreSamples.

(** * Properties *)

(** Literals are compared as written, or evaluated by [vm_compute]. *)
#[global] Opaque py.

Ltac by_compute := vm_compute; first [reflexivity | discriminate | done].

(** ** The library model on small inputs *)

Example py_euro : py "€" = [8364].
Proof. by_compute. Qed.

Example replace_overlap : replace (py "aa") (py "b") (py "aaa") = py "ba".
Proof. by_compute. Qed.

Example replace_empty_old : replace [] (py "-") (py "ab") = py "-a-b-".
Proof. by_compute. Qed.

Example strip_both : strip (py "  a b	") = py "a b".
Proof. by_compute. Qed.

Example str_of_int_neg : str_of_int (-120) = py "-120".
Proof. by_compute. Qed.

Example str_of_int_zero : str_of_int 0 = py "0".
Proof. by_compute. Qed.

Example floatify_int : floatify (py "1234") = Some (Fin 1234).
Proof. by_compute. Qed.

Example floatify_frac : floatify (py "45.000") = Some (Fin 45).
Proof. by_compute. Qed.

Example floatify_exp : floatify (py "-1.5e-2") = Some (Inexact (-3 # 200)).
Proof. by_compute. Qed.

Example floatify_dangling_exp : floatify (py "12e") = None.
Proof. by_compute. Qed.

Example floatify_inf : floatify (py "-Infinity") = Some (Inf true).
Proof. by_compute. Qed.

Example floatify_na : floatify (py "N/A") = None.
Proof. by_compute. Qed.

Example floatify_nan : floatify (py "nan") = None.
Proof. by_compute. Qed.

Example to_numeric_raise : to_numeric errors_raise [py "1"; py "N/A"] = None.
Proof. by_compute. Qed.

Example to_numeric_coerce : to_numeric errors_coerce [py "1"; py "N/A"; []] = Some [Fin 1; NaN; NaN].
Proof. by_compute. Qed.

(** ** Text: replacing one character by nothing, and stripping *)

Section TextFacts.

Implicit Types (s : list N) (c : N).

Lemma replace_char_filter c s : replace [c] [] s = filter (fun x => x ≠ c) s.
Proof.
  unfold replace. induction s as [|a s IH]; [done|].
  cbn [replace_scan startswith length Nat.pred].
  destruct (N.eqb_spec c a) as [->|Hne]; cbn [andb app].
  - rewrite IH, filter_cons_False; [done|]. by intros ?.
  - rewrite IH, filter_cons_True; [done|]. by intros ->.
Qed.

Lemma elem_of_lstrip c s : c ∈ lstrip s -> c ∈ s.
Proof.
  induction s as [|a s IH]; cbn; [done|].
  destruct (isspace a); [|done]. intros ?. right. auto.
Qed.

Lemma elem_of_strip c s : c ∈ strip s -> c ∈ s.
Proof.
  unfold strip, rstrip. rewrite elem_of_reverse. intros Hc.
  apply elem_of_lstrip in Hc. rewrite elem_of_reverse in Hc.
  by apply elem_of_lstrip.
Qed.

Lemma lstrip_id s : Forall (fun c => isspace c = false) s -> lstrip s = s.
Proof. destruct 1 as [|c s Hc _]; cbn; [done|]. by rewrite Hc. Qed.

Lemma strip_id s : Forall (fun c => isspace c = false) s -> strip s = s.
Proof.
  intros Hs. unfold strip, rstrip. rewrite (lstrip_id s Hs).
  rewrite lstrip_id; [apply reverse_involutive|].
  by apply Forall_reverse.
Qed.

End TextFacts.

Ltac split_comparisons :=
  repeat match goal with
  | |- context [N.leb ?a ?b] => destruct (N.leb_spec a b)
  | |- context [N.eqb ?a ?b] => destruct (N.eqb_spec a b)
  end.

Lemma isdigit_bounds c : isdigit c = true <-> 48 <= c <= 57.
Proof. unfold isdigit. rewrite andb_true_iff, !N.leb_le. tauto. Qed.

Lemma isdigit_not_isspace c : isdigit c = true -> isspace c = false.
Proof.
  rewrite isdigit_bounds. intros Hc. unfold isspace.
  split_comparisons; cbn; first [reflexivity | lia].
Qed.

Lemma isdigit_not_isspace_ascii c : isdigit c = true -> isspace_ascii c = false.
Proof.
  rewrite isdigit_bounds. intros Hc. unfold isspace_ascii.
  split_comparisons; cbn; first [reflexivity | lia].
Qed.

(** ** The cleaning of one profit text *)

Lemma clean_filter text :
  clean text = strip (filter (fun c => c ∉ currency_marks) text).
Proof.
  unfold clean. change (py " ") with [32]. change (py ",") with [44].
  change (py "€") with [8364]. rewrite !replace_char_filter, !list_filter_filter.
  f_equal. apply list_filter_iff. intros c.
  change currency_marks with [8364; 44; 32]. rewrite !elem_of_cons, elem_of_nil.
  tauto.
Qed.

(** ** Frames: reading and assigning columns *)

Section FrameFacts.

Implicit Types (k : list N) (v : list cell) (cols : list (list N * list cell)).
Implicit Types (d : DataFrame).

Lemma assoc_assign_eq k v cols : assoc k (assign k v cols) = Some v.
Proof.
  induction cols as [|[k' v'] cols IH]; cbn.
  - by case_bool_decide.
  - case_bool_decide as Hk; cbn; by case_bool_decide.
Qed.

Lemma assoc_assign_ne k k' v cols :
  k ≠ k' -> assoc k' (assign k v cols) = assoc k' cols.
Proof.
  intros Hne. induction cols as [|[k0 v0] cols IH]; cbn.
  - by case_bool_decide.
  - case_bool_decide as Hk; cbn.
    + subst k0. by repeat case_bool_decide.
    + by rewrite IH.
Qed.

Lemma assoc_Some k v cols : assoc k cols = Some v -> (k, v) ∈ cols.
Proof.
  induction cols as [|[k' v'] cols IH]; cbn; [done|].
  case_bool_decide as Hk.
  - intros [= ->]. subst. left.
  - intros ?. right. auto.
Qed.

Lemma assoc_None k cols : assoc k cols = None <-> k ∉ cols.*1.
Proof.
  induction cols as [|[k' v'] cols IH]; cbn.
  - split; [intros _; apply not_elem_of_nil | done].
  - rewrite not_elem_of_cons. case_bool_decide as Hk; [|rewrite IH]; intuition congruence.
Qed.

Lemma assoc_is_Some k cols : is_Some (assoc k cols) <-> k ∈ cols.*1.
Proof.
  rewrite <- not_eq_None_Some, assoc_None.
  destruct (decide (k ∈ cols.*1)); naive_solver.
Qed.

Lemma assign_labels k v cols :
  (assign k v cols).*1 = if decide (k ∈ cols.*1) then cols.*1 else cols.*1 ++ [k].
Proof.
  induction cols as [|[k' v'] cols IH]; cbn.
  - rewrite decide_False; [done | apply not_elem_of_nil].
  - case_bool_decide as Hk; cbn.
    + subst k'. rewrite decide_True; [done | left].
    + rewrite IH. destruct (decide (k ∈ cols.*1)) as [Hin|Hin].
      * rewrite decide_True; [done | by right].
      * rewrite decide_False; [done|]. rewrite not_elem_of_cons. naive_solver.
Qed.

Lemma assign_Forall (P : list cell -> Prop) k v cols :
  P v -> Forall (fun c => P c.2) cols -> Forall (fun c => P c.2) (assign k v cols).
Proof.
  intros Hv. induction 1 as [|[k' v'] cols Hc Hcols IH]; cbn.
  - by constructor.
  - case_bool_decide; constructor; auto.
Qed.

Lemma assoc_filter k (ks : list (list N)) cols :
  assoc k (filter (fun c => c.1 ∉ ks) cols)
  = if decide (k ∈ ks) then None else assoc k cols.
Proof.
  induction cols as [|[k' v'] cols IH].
  - cbn. by destruct (decide (k ∈ ks)).
  - rewrite filter_cons. cbn [fst assoc].
    destruct (decide (k' ∉ ks)) as [Hin|Hin]; cbn [assoc]; rewrite IH;
      destruct (decide (k ∈ ks)) as [Hk|Hk]; try case_bool_decide; subst; done.
Qed.

Lemma column_set_eq d k v : column (set_column d k v) k = Some v.
Proof. apply assoc_assign_eq. Qed.

Lemma column_set_ne d k k' v : k ≠ k' -> column (set_column d k v) k' = column d k'.
Proof. apply assoc_assign_ne. Qed.

Lemma column_length d k v : wf d -> column d k = Some v -> length v = nrows d.
Proof.
  intros [_ Hlen] Hk. apply assoc_Some in Hk.
  rewrite Forall_forall in Hlen. apply (Hlen _ Hk).
Qed.

Lemma set_column_wf d k v : wf d -> length v = nrows d -> wf (set_column d k v).
Proof.
  intros [Hnd Hlen] Hv. split.
  - unfold labels in *. cbn. rewrite assign_labels. case_decide; [done|].
    rewrite NoDup_app. split_and!; [done | | apply NoDup_singleton].
    intros x Hx. rewrite list_elem_of_singleton. by intros ->.
  - cbn. by apply (assign_Forall (fun c => length c = nrows d)).
Qed.

Lemma column_without d ks k :
  column (without d ks) k = if decide (k ∈ ks) then None else column d k.
Proof. apply assoc_filter. Qed.

End FrameFacts.

(** ** Running the primitive operations *)

Section RunFacts.

Implicit Types (w : world) (d : DataFrame) (r : nat).

Lemma run_bind {A B} (m : M A) (f : A -> M B) w :
  (m ≫= f) w = match m w with
               | (Ok a, w') => f a w'
               | (Raise e, w') => (Raise e, w')
               end.
Proof. reflexivity. Qed.

Lemma bind_ok {A B} (m : M A) (f : A -> M B) w a w' out :
  m w = (Ok a, w') -> f a w' = out -> (m ≫= f) w = out.
Proof. intros Hm Hf. by rewrite run_bind, Hm. Qed.

Lemma bind_raise {A B} (m : M A) (f : A -> M B) w e w' :
  m w = (Raise e, w') -> (m ≫= f) w = (Raise e, w').
Proof. intros Hm. by rewrite run_bind, Hm. Qed.

Lemma deref_run w r d : heap w !! r = Some d -> deref r w = (Ok d, w).
Proof. unfold deref. by intros ->. Qed.

Lemma getitem_run w r d k v :
  heap w !! r = Some d -> column d k = Some v -> getitem r k w = (Ok v, w).
Proof.
  intros Hr Hk. unfold getitem. rewrite run_bind, (deref_run _ _ _ Hr).
  by rewrite Hk.
Qed.

Lemma getitem_missing w r d k :
  heap w !! r = Some d -> column d k = None -> getitem r k w = (Raise (KeyError k), w).
Proof.
  intros Hr Hk. unfold getitem. rewrite run_bind, (deref_run _ _ _ Hr).
  by rewrite Hk.
Qed.

Lemma setitem_run w r d k v :
  heap w !! r = Some d -> length v = nrows d ->
  setitem r k v w
  = (Ok tt, mkWorld (files w) (<[r := set_column d k v]> (heap w)) (page w)).
Proof.
  intros Hr Hv. unfold setitem. rewrite run_bind, (deref_run _ _ _ Hr).
  by rewrite bool_decide_true.
Qed.

Lemma copy_run w r d :
  heap w !! r = Some d ->
  copy r w = (Ok (length (heap w)), mkWorld (files w) (heap w ++ [d]) (page w)).
Proof. intros Hr. unfold copy. by rewrite run_bind, (deref_run _ _ _ Hr). Qed.

Lemma read_csv_run w p d :
  files w !! p = Some (File (Some d)) ->
  read_csv p w = (Ok (length (heap w)), mkWorld (files w) (heap w ++ [d]) (page w)).
Proof. unfold read_csv. by intros ->. Qed.

Lemma lookup_new {A} (l : list A) (x : A) : (l ++ [x]) !! length l = Some x.
Proof. by rewrite lookup_app_r, Nat.sub_diag. Qed.

Lemma insert_new {A} (l : list A) (x y : A) : <[length l := y]> (l ++ [x]) = l ++ [y].
Proof. by rewrite insert_app_r_alt, Nat.sub_diag. Qed.

End RunFacts.

(** ** The loader *)

Lemma convert_numeric_coerce s : convert_numeric errors_coerce s = Some (coerced s).
Proof. unfold convert_numeric, coerced. destruct s; [done|]. by destruct (floatify _). Qed.

Lemma to_numeric_coerce_total texts :
  to_numeric errors_coerce texts = Some (coerced <$> texts).
Proof.
  induction texts as [|s texts IH]; cbn [to_numeric]; [done|].
  by rewrite convert_numeric_coerce, IH.
Qed.

Section LoaderFacts.

Context `{FloatRepr}.

Lemma load_data_run w p d col :
  files w !! p = Some (File (Some d)) ->
  wf d ->
  column d profit_label = Some col ->
  load_data p w
  = (Ok (length (heap w)), mkWorld (files w) (heap w ++ [loaded d col]) (page w)).
Proof.
  intros Hp Hwf Hcol. unfold load_data.
  eapply bind_ok; [by apply read_csv_run|].
  eapply bind_ok; [eapply getitem_run; [apply lookup_new|exact Hcol]|].
  eapply bind_ok; [unfold lift; by rewrite to_numeric_coerce_total|].
  eapply bind_ok; [eapply setitem_run; [apply lookup_new|]|].
  - rewrite !length_fmap. unfold cleaned. rewrite !length_fmap.
    by apply (column_length d profit_label).
  - cbn [heap files page]. by rewrite insert_new.
Qed.

Lemma load_data_no_profit_text w p d :
  files w !! p = Some (File (Some d)) ->
  column d profit_label = None ->
  load_data p w
  = (Raise (KeyError profit_label), mkWorld (files w) (heap w ++ [d]) (page w)).
Proof.
  intros Hp Hcol. unfold load_data.
  eapply bind_ok; [by apply read_csv_run|].
  eapply bind_raise. eapply getitem_missing; [apply lookup_new|exact Hcol].
Qed.

Lemma loaded_wf d col : wf d -> column d profit_label = Some col -> wf (loaded d col).
Proof.
  intros Hwf Hcol. apply set_column_wf; [done|].
  unfold cleaned. rewrite !length_fmap. by apply (column_length d profit_label).
Qed.

Lemma loaded_profit d col i c :
  col !! i = Some c ->
  at_ (loaded d col) i (py "Profit") = Some (VFloat (coerced (clean (py_str c)))).
Proof.
  intros Hc. unfold at_, loaded. rewrite column_set_eq. cbn [mbind option_bind].
  unfold cleaned. by rewrite !list_lookup_fmap, Hc.
Qed.

Lemma loaded_other d col k :
  k ≠ py "Profit" -> column (loaded d col) k = column d k.
Proof. intros Hk. unfold loaded. rewrite column_set_ne; [done|]. intros E. by apply Hk. Qed.

End LoaderFacts.

(** ** Parsing a run of digits *)

Lemma read_digits_all number count ds :
  digits ds ->
  read_digits number count ds
  = (foldl (fun acc c => acc * 10 + (c - 48)) number ds, (count + length ds)%nat, []).
Proof.
  intros Hds. revert number count.
  induction Hds as [|c ds Hc _ IH]; intros number count; cbn.
  - by rewrite Nat.add_0_r.
  - rewrite Hc, IH. do 2 f_equal. lia.
Qed.

Lemma Qred_integer (z : Z) : Qred (inject_Z z) = inject_Z z.
Proof.
  unfold Qred, inject_Z.
  pose proof (Z.ggcd_gcd z 1) as Hg.
  pose proof (Z.ggcd_correct_divisors z 1) as Hd.
  destruct (Z.ggcd z 1) as [g [aa bb]]. cbn in Hg, Hd.
  rewrite Z.gcd_1_r in Hg. subst g. destruct Hd as [Ha Hb].
  f_equal; [lia|]. replace bb with 1%Z by lia. reflexivity.
Qed.

Lemma scale_integer (negative : bool) (number : N) :
  (Z.of_N number <= exact_bound)%Z ->
  scale negative number 0
  = Fin (inject_Z (if negative then - Z.of_N number else Z.of_N number)).
Proof.
  intros Hbound. unfold scale. change (0 <=? 0)%Z with true.
  change (10 ^ 0)%Z with 1%Z. cbv zeta. rewrite Z.mul_1_r.
  change (?z # 1) with (inject_Z z). rewrite Qred_integer.
  cbn [inject_Z Qnum Qden].
  assert (Z.abs (if negative then - Z.of_N number else Z.of_N number) = Z.of_N number)
    as -> by (destruct negative; lia).
  apply Z.leb_le in Hbound. rewrite Hbound. reflexivity.
Qed.

Lemma within_digits_kept (count : nat) (q : Q) :
  (count <= max_digits)%nat -> within_digits count (Fin q) = Fin q.
Proof. intros Hc. cbn [within_digits]. apply Nat.leb_le in Hc. by rewrite Hc. Qed.

Lemma foldl_digits_upper (acc : N) ds :
  digits ds ->
  foldl (fun acc c => acc * 10 + (c - 48)) acc ds < (acc + 1) * 10 ^ N.of_nat (length ds).
Proof.
  intros Hds. revert acc.
  induction Hds as [|c ds Hc _ IH]; intros acc; cbn [foldl length]; [cbn; lia|].
  apply isdigit_bounds in Hc. specialize (IH (acc * 10 + (c - 48))).
  rewrite Nat2N.inj_succ, N.pow_succ_r'. nia.
Qed.

(** A numeral of at most 15 digits is within both limits of the exact
    range. *)
Lemma short_numeral ds :
  digits ds -> (length ds <= 15)%nat ->
  (length ds <= max_digits)%nat /\ (Z.of_N (decimal_value ds) <= exact_bound)%Z.
Proof.
  intros Hds Hlen. split; [unfold max_digits; lia|].
  pose proof (foldl_digits_upper 0 ds Hds) as Hup. fold (decimal_value ds) in Hup.
  assert (10 ^ N.of_nat (length ds) <= 10 ^ 15) as Hpow
    by (apply N.pow_le_mono_r; lia).
  change (10 ^ 15) with 1000000000000000 in Hpow.
  unfold exact_bound. change (2 ^ 53)%Z with 9007199254740992%Z. lia.
Qed.

Lemma xstrtod_digits ds :
  digits ds -> ds ≠ [] ->
  (length ds <= max_digits)%nat ->
  (Z.of_N (decimal_value ds) <= exact_bound)%Z ->
  xstrtod ds = Some (Fin (inject_Z (Z.of_N (decimal_value ds))), []).
Proof.
  intros Hds Hne Hlen Hbound. destruct ds as [|c ds]; [done|].
  pose proof (Forall_inv Hds) as Hc. cbn beta in Hc.
  unfold xstrtod. cbn [skip_space].
  rewrite (isdigit_not_isspace_ascii c Hc). unfold read_sign.
  apply isdigit_bounds in Hc as Hb.
  destruct (N.eqb_spec c 45); [lia|]. destruct (N.eqb_spec c 43); [lia|].
  rewrite (read_digits_all _ _ _ Hds). cbn [Nat.add]. rewrite Nat.add_0_r.
  destruct (Nat.eqb_spec (length (c :: ds)) 0) as [E|_]; [done|]. cbn [skip_space].
  change (0 - Z.of_nat 0)%Z with 0%Z. fold (decimal_value (c :: ds)).
  rewrite scale_integer by done. by rewrite within_digits_kept.
Qed.

Lemma floatify_digits ds :
  digits ds -> ds ≠ [] ->
  (length ds <= max_digits)%nat ->
  (Z.of_N (decimal_value ds) <= exact_bound)%Z ->
  floatify ds = Some (Fin (inject_Z (Z.of_N (decimal_value ds)))).
Proof. intros Hds Hne Hlen Hbound. unfold floatify. by rewrite xstrtod_digits. Qed.

Lemma digit_not_currency_mark c : isdigit c = true -> c ∉ currency_marks.
Proof.
  rewrite isdigit_bounds. intros Hc.
  replace currency_marks with [8364; 44; 32] by by_compute.
  rewrite !not_elem_of_cons. split_and!; [lia..|apply not_elem_of_nil].
Qed.

Lemma filter_digits ds : digits ds -> filter (fun c => c ∉ currency_marks) ds = ds.
Proof.
  induction 1 as [|c ds Hc _ IH]; [done|].
  rewrite filter_cons_True by by apply digit_not_currency_mark. by rewrite IH.
Qed.

Lemma clean_comma_separated a b :
  digits a -> digits b -> clean (a ++ py "," ++ b) = a ++ b.
Proof.
  intros Ha Hb. rewrite clean_filter.
  replace (py ",") with [44] by by_compute. cbn [app].
  rewrite filter_app, filter_cons_False.
  - rewrite !filter_digits by done.
    apply strip_id. unfold digits in *. rewrite Forall_app. split.
    + eapply Forall_impl; [exact Ha|]. apply isdigit_not_isspace.
    + eapply Forall_impl; [exact Hb|]. apply isdigit_not_isspace.
  - intros Hc. apply Hc. replace currency_marks with [8364; 44; 32] by by_compute.
    set_solver.
Qed.



(** ** The enricher *)

Lemma get_coordinates_brussels : get_coordinates !! py "Brussels" = Some brussels.
Proof. by_compute. Qed.

Lemma get_coordinates_entry k lat lon :
  get_coordinates !! k = Some (lat, lon) ->
  exists p q : Q, lat = Fin p /\ lon = Fin q.
Proof.
  unfold get_coordinates. intros Hk. apply elem_of_list_to_map_2 in Hk.
  repeat (apply elem_of_cons in Hk as [[= _ -> ->]|Hk]; [by eauto|]).
  by apply elem_of_nil in Hk.
Qed.

Lemma coordinates_of_finite loc :
  exists p q : Q, coordinates_of loc = (Fin p, Fin q).
Proof.
  unfold coordinates_of. destruct (dict_get _ loc) as [[lat lon]|] eqn:Hloc; cbn.
  - destruct loc; cbn in Hloc; try done.
    destruct (get_coordinates_entry _ _ _ Hloc) as (p & q & -> & ->). eauto.
  - unfold brussels. eauto.
Qed.

Lemma enrich_loop_cons coords loc rest latitudes longitudes :
  enrich_loop coords (loc :: rest) latitudes longitudes
  = match from_option Some (coords !! py "Brussels") (dict_get coords loc) with
    | Some (lat, lon) =>
        enrich_loop coords rest (latitudes ++ [VFloat lat]) (longitudes ++ [VFloat lon])
    | None => Raise TypeError
    end.
Proof. reflexivity. Qed.

Lemma enrich_loop_run locs latitudes longitudes :
  enrich_loop get_coordinates locs latitudes longitudes
  = Ok (latitudes ++ ((fun loc => VFloat (coordinates_of loc).1) <$> locs),
        longitudes ++ ((fun loc => VFloat (coordinates_of loc).2) <$> locs)).
Proof.
  revert latitudes longitudes.
  induction locs as [|loc locs IH]; intros latitudes longitudes.
  - cbn. by rewrite !app_nil_r.
  - rewrite enrich_loop_cons, get_coordinates_brussels, !fmap_cons.
    destruct (dict_get get_coordinates loc) as [[lat lon]|] eqn:Hloc.
    + assert (coordinates_of loc = (lat, lon)) as ->
        by (unfold coordinates_of; by rewrite Hloc).
      cbn [from_option fst snd]. by rewrite IH, <- !app_assoc.
    + assert (coordinates_of loc = brussels) as ->
        by (unfold coordinates_of; by rewrite Hloc).
      cbn [from_option brussels fst snd]. by rewrite IH, <- !app_assoc.
Qed.

Lemma enrich_run w r d locs :
  heap w !! r = Some d ->
  wf d ->
  column d (py "Locality") = Some locs ->
  enrich_with_coords r w
  = (Ok (length (heap w)), mkWorld (files w) (heap w ++ [enriched d locs]) (page w)).
Proof.
  intros Hr Hwf Hlocs. unfold enrich_with_coords.
  pose proof (column_length _ _ _ Hwf Hlocs) as Hlen.
  eapply bind_ok; [by eapply getitem_run|].
  eapply bind_ok; [unfold lift; by rewrite enrich_loop_run|].
  cbn [app]. eapply bind_ok; [by eapply copy_run|].
  eapply bind_ok; [eapply setitem_run; [apply lookup_new|by rewrite length_fmap]|].
  cbn [heap files page]. rewrite insert_new.
  eapply bind_ok; [eapply setitem_run; [apply lookup_new|by rewrite length_fmap]|].
  cbn [heap files page]. by rewrite insert_new.
Qed.

Ltac label_neq := let E := fresh in intros E; vm_compute in E; discriminate E.

Ltac by_compute_false :=
  let E := fresh in
  intros E; apply (bool_decide_pack _) in E; vm_compute in E; exact E.

Lemma enriched_latitude d locs i loc :
  locs !! i = Some loc ->
  at_ (enriched d locs) i (py "Latitude") = Some (VFloat (coordinates_of loc).1).
Proof.
  intros Hloc. unfold at_, enriched.
  rewrite column_set_ne by label_neq. rewrite column_set_eq. cbn [mbind option_bind].
  by rewrite list_lookup_fmap, Hloc.
Qed.

Lemma enriched_longitude d locs i loc :
  locs !! i = Some loc ->
  at_ (enriched d locs) i (py "Longitude") = Some (VFloat (coordinates_of loc).2).
Proof.
  intros Hloc. unfold at_, enriched. rewrite column_set_eq. cbn [mbind option_bind].
  by rewrite list_lookup_fmap, Hloc.
Qed.

Lemma enriched_other d locs k :
  k ≠ py "Latitude" -> k ≠ py "Longitude" ->
  column (enriched d locs) k = column d k.
Proof.
  intros Hlat Hlon. unfold enriched. by rewrite !column_set_ne by congruence.
Qed.

Lemma enriched_wf d locs :
  wf d -> column d (py "Locality") = Some locs -> wf (enriched d locs).
Proof.
  intros Hwf Hlocs. pose proof (column_length _ _ _ Hwf Hlocs) as Hlen.
  unfold enriched. apply set_column_wf; [apply set_column_wf|]; try done;
    by rewrite length_fmap.
Qed.

(** ** The orchestrator *)

Section MainFacts.

Context `{FloatRepr}.

Lemma labels_without d ks :
  labels (without d ks) = filter (fun k => k ∉ ks) (labels d).
Proof.
  unfold labels, without. cbn [columns].
  induction (columns d) as [|[k v] cols IH]; [done|].
  rewrite fmap_cons, !filter_cons. cbn [fst].
  destruct (decide (k ∉ ks)); [rewrite fmap_cons|]; by rewrite IH.
Qed.

Lemma drop_run w r d ks :
  heap w !! r = Some d ->
  Forall (fun k => is_Some (column d k)) ks ->
  drop r ks w
  = (Ok (length (heap w)), mkWorld (files w) (heap w ++ [without d ks]) (page w)).
Proof.
  intros Hr Hks. unfold drop. eapply bind_ok; [by apply deref_run|].
  assert (list_find (fun k => column d k = None) ks = None) as ->; [|done].
  apply list_find_None. eapply Forall_impl; [exact Hks|].
  intros k [v Hv] Hn. congruence.
Qed.

Lemma draws_only_bind {A B} (m : M A) (f : A -> M B) :
  draws_only m -> (forall a, draws_only (f a)) -> draws_only (m ≫= f).
Proof.
  intros Hm Hf w. rewrite run_bind. specialize (Hm w).
  destruct (m w) as [[a|e] w1]; cbn [snd] in *; [|done].
  destruct Hm as (Hfiles & Hheap & rest1 & Hpage & Hrest1).
  destruct (Hf a w1) as (Hfiles' & Hheap' & rest2 & Hpage' & Hrest2).
  split_and!; [congruence..|].
  exists (rest1 ++ rest2). rewrite Hpage', Hpage, app_assoc.
  split; [done | by apply Forall_app].
Qed.

Lemma draws_only_silent {A} (m : M A) :
  (forall w, (m w).2 = w) -> draws_only m.
Proof.
  intros Hm w. rewrite Hm. split_and!; [done..|].
  exists []. by rewrite app_nil_r.
Qed.

Lemma draws_only_emit e : ~ is_table_view e -> draws_only (emit e).
Proof.
  intros He w. cbn. split_and!; [done..|]. exists [e]. split; [done|].
  by constructor.
Qed.

Lemma draws_only_deref r : draws_only (deref r).
Proof. apply draws_only_silent. intros w. unfold deref. by destruct (heap w !! r). Qed.

Lemma draws_only_raise {A} e : draws_only (raise (A := A) e).
Proof. by apply draws_only_silent. Qed.

Lemma draws_only_lift {A} (x : result A) : draws_only (lift x).
Proof. by apply draws_only_silent. Qed.

Lemma build_bar_chart_draws_only r : draws_only (build_bar_chart r).
Proof.
  unfold build_bar_chart. apply draws_only_bind; [apply draws_only_deref|].
  intros d. destruct (list_find _ _).
  - apply draws_only_raise.
  - apply draws_only_emit. cbn. tauto.
Qed.

Lemma build_map_draws_only r : draws_only (build_map r).
Proof.
  unfold build_map. apply draws_only_bind; [apply draws_only_deref|].
  intros d. apply draws_only_bind; [apply draws_only_lift|].
  intros m. apply draws_only_emit. cbn. tauto.
Qed.

Lemma charts_draws_only df : draws_only (charts df).
Proof.
  unfold charts.
  apply draws_only_bind; [apply draws_only_emit; cbn; tauto|]. intros _.
  apply draws_only_bind; [apply build_bar_chart_draws_only|]. intros _.
  apply draws_only_bind; [apply draws_only_emit; cbn; tauto|]. intros _.
  apply build_map_draws_only.
Qed.

Lemma main_run w script p d col locs :
  p = (if bool_decide (is_Some (files w !! local_csv script))
       then local_csv script else parent_csv script) ->
  files w !! p = Some (File (Some d)) ->
  wf d ->
  column d profit_label = Some col ->
  column d (py "Locality") = Some locs ->
  main script w = charts (S (length (heap w))) (after_table w d col locs).
Proof.
  intros Hp Hfile Hwf Hcol Hlocs. unfold main.
  eapply bind_ok; [reflexivity|]. eapply bind_ok; [reflexivity|].
  cbn zeta. fold (local_csv script) (parent_csv script).
  eapply bind_ok; [reflexivity|]. cbn [files]. rewrite <- Hp.
  eapply bind_ok; [by eapply load_data_run|].
  pose proof (loaded_wf d col Hwf Hcol) as Hwf'.
  assert (column (loaded d col) (py "Locality") = Some locs) as Hlocs'.
  { rewrite loaded_other; [done | label_neq]. }
  eapply bind_ok; [eapply enrich_run; [apply lookup_new|done..]|].
  cbn [heap files page]. eapply bind_ok; [reflexivity|].
  eapply bind_ok.
  { eapply drop_run.
    - apply lookup_new.
    - unfold enriched. repeat constructor.
      + rewrite column_set_ne by label_neq. by rewrite column_set_eq.
      + by rewrite column_set_eq. }
  cbn [heap files page]. eapply bind_ok; [eapply deref_run; apply lookup_new|].
  eapply bind_ok; [reflexivity|].
  unfold charts, after_table, shown, coordinate_labels. cbn [heap files page].
  rewrite length_app, Nat.add_1_r. by rewrite <- !app_assoc.
Qed.

End MainFacts.

(** * The claims *)

Section LoaderClaims.

Context `{FloatRepr}.

(** C1. Loading a table whose profit column is [col]: every text handed
    to the numeric parser is the cell's text cleaned, it holds no euro
    sign, comma or space, and the derived Profit is its parse.  The
    text ["€1,234 "] gives 1234.0; the text ["€ 45.000"] is cleaned to
    ["45.000"], the decimal point kept, and gives 45.0. *)
Theorem load_data_cleans_profit_text
    (w : world) (p : list (list N)) (d : DataFrame) (col : list cell) :
  files w !! p = Some (File (Some d)) ->
  wf d ->
  column d profit_label = Some col ->
  exists w' d',
    load_data p w = (Ok (length (heap w)), w')
    /\ heap w' !! length (heap w) = Some d'
    /\ forall i c, col !! i = Some c ->
         (forall m, m ∈ currency_marks -> m ∉ clean (py_str c))
         /\ (exists x, to_numeric errors_coerce [clean (py_str c)] = Some [x]
                       /\ at_ d' i (py "Profit") = Some (VFloat x))
         /\ (c = VStr (py "€1,234 ") ->
             at_ d' i (py "Profit") = Some (VFloat (Fin 1234)))
         /\ (c = VStr (py "€ 45.000") ->
             clean (py_str c) = py "45.000"
             /\ at_ d' i (py "Profit") = Some (VFloat (Fin 45))).
Proof.
  intros Hp Hwf Hcol. eexists _, (loaded d col).
  split; [by apply load_data_run|]. split; [apply lookup_new|].
  intros i c Hc. pose proof (loaded_profit d col i c Hc) as Hprofit.
  split_and!.
  - intros m Hm Hin. rewrite clean_filter in Hin.
    apply elem_of_strip, list_elem_of_filter in Hin. tauto.
  - exists (coerced (clean (py_str c))). split; [|done].
    by rewrite to_numeric_coerce_total.
  - intros ->. rewrite Hprofit. by_compute.
  - intros ->. rewrite Hprofit. split; by_compute.
Qed.

(** C2. A row whose profit text does not parse after cleaning, ["N/A"]
    for one, gets the missing value as its Profit; the load returns
    (nothing is raised), and every other column of the table, hence
    every other field of that row, is as it was read. *)
Theorem load_data_unparsable_profit_is_missing
    (w : world) (p : list (list N)) (d : DataFrame) (col : list cell) :
  files w !! p = Some (File (Some d)) ->
  wf d ->
  column d profit_label = Some col ->
  exists w' d',
    load_data p w = (Ok (length (heap w)), w')
    /\ heap w' !! length (heap w) = Some d'
    /\ nrows d' = nrows d
    /\ (forall k, k ≠ py "Profit" -> column d' k = column d k)
    /\ (forall i c, col !! i = Some c ->
          floatify (clean (py_str c)) = None ->
          at_ d' i (py "Profit") = Some (VFloat NaN))
    /\ (forall i, col !! i = Some (VStr (py "N/A")) ->
          at_ d' i (py "Profit") = Some (VFloat NaN)).
Proof.
  intros Hp Hwf Hcol. eexists _, (loaded d col).
  split; [by apply load_data_run|]. split; [apply lookup_new|].
  split; [done|]. split; [intros k Hk; by apply loaded_other|]. split.
  - intros i c Hc Hfail. rewrite (loaded_profit d col i c Hc).
    unfold coerced. by rewrite Hfail.
  - intros i Hc. rewrite (loaded_profit d col i _ Hc). by_compute.
Qed.


End LoaderClaims.

Section EnricherClaims.

Implicit Types (w : world) (d : DataFrame) (locs : list cell).

(** C3. On a table with a Locality column the enricher returns, and
    every row of its result has a Latitude and a Longitude that are
    finite numbers, whatever the row's Locality holds. *)
Theorem enrich_assigns_coordinates_to_every_row w (r : nat) d locs :
  heap w !! r = Some d ->
  wf d ->
  column d (py "Locality") = Some locs ->
  exists w' d',
    enrich_with_coords r w = (Ok (length (heap w)), w')
    /\ heap w' !! length (heap w) = Some d'
    /\ nrows d' = nrows d
    /\ forall i, (i < nrows d)%nat ->
         exists lat lon : Q,
           at_ d' i (py "Latitude") = Some (VFloat (Fin lat))
           /\ at_ d' i (py "Longitude") = Some (VFloat (Fin lon))
           /\ is_missing (Fin lat) = false /\ is_missing (Fin lon) = false.
Proof.
  intros Hr Hwf Hlocs. eexists _, (enriched d locs).
  split; [by apply enrich_run|]. split; [apply lookup_new|]. split; [done|].
  intros i Hi. rewrite <- (column_length _ _ _ Hwf Hlocs) in Hi.
  apply lookup_lt_is_Some in Hi as [loc Hloc].
  destruct (coordinates_of_finite loc) as (lat & lon & Hpair).
  exists lat, lon.
  rewrite (enriched_latitude d locs i loc Hloc), (enriched_longitude d locs i loc Hloc).
  by rewrite Hpair.
Qed.

(** C4. The coordinate table has seven entries.  A row whose Locality is
    one of its keys gets that entry's pair, so ["Waterloo"] gets
    (50.7219, 4.3997); a row whose Locality is not a key gets the
    Brussels entry (50.8466, 4.3528). *)
Theorem enrich_looks_up_locality w (r : nat) d locs :
  heap w !! r = Some d ->
  wf d ->
  column d (py "Locality") = Some locs ->
  exists w' d',
    enrich_with_coords r w = (Ok (length (heap w)), w')
    /\ heap w' !! length (heap w) = Some d'
    /\ size get_coordinates = 7%nat
    /\ get_coordinates !! py "Waterloo" = Some (Fin 50.7219, Fin 4.3997)
    /\ get_coordinates !! py "Brussels" = Some (Fin 50.8466, Fin 4.3528)
    /\ (forall i s lat lon,
          locs !! i = Some (VStr s) ->
          get_coordinates !! s = Some (lat, lon) ->
          at_ d' i (py "Latitude") = Some (VFloat lat)
          /\ at_ d' i (py "Longitude") = Some (VFloat lon))
    /\ (forall i loc,
          locs !! i = Some loc ->
          (forall s, loc = VStr s -> get_coordinates !! s = None) ->
          at_ d' i (py "Latitude") = Some (VFloat (Fin 50.8466))
          /\ at_ d' i (py "Longitude") = Some (VFloat (Fin 4.3528))).
Proof.
  intros Hr Hwf Hlocs. eexists _, (enriched d locs).
  split; [by apply enrich_run|]. split; [apply lookup_new|].
  split; [by_compute|]. split; [by_compute|]. split; [by_compute|]. split.
  - intros i s lat lon Hi Hs.
    rewrite (enriched_latitude d locs i _ Hi), (enriched_longitude d locs i _ Hi).
    unfold coordinates_of. cbn [dict_get]. by rewrite Hs.
  - intros i loc Hi Hloc.
    rewrite (enriched_latitude d locs i _ Hi), (enriched_longitude d locs i _ Hi).
    assert (dict_get get_coordinates loc = None) as Hnone.
    { destruct loc; cbn; auto. }
    unfold coordinates_of. by rewrite Hnone.
Qed.

(** C9. A row whose Locality is not a text (the missing value [NaN], a
    number, a boolean) does not make the enricher raise: it gets the
    Brussels pair (50.8466, 4.3528), as an unknown locality does. *)
Theorem enrich_defaults_on_non_text_locality w (r : nat) d locs (i : nat) (loc : cell) :
  heap w !! r = Some d ->
  wf d ->
  column d (py "Locality") = Some locs ->
  locs !! i = Some loc ->
  (forall s, loc ≠ VStr s) ->
  exists w' d',
    enrich_with_coords r w = (Ok (length (heap w)), w')
    /\ heap w' !! length (heap w) = Some d'
    /\ at_ d' i (py "Latitude") = Some (VFloat (Fin 50.8466))
    /\ at_ d' i (py "Longitude") = Some (VFloat (Fin 4.3528)).
Proof.
  intros Hr Hwf Hlocs Hi Hloc. eexists _, (enriched d locs).
  split; [by apply enrich_run|]. split; [apply lookup_new|].
  rewrite (enriched_latitude d locs i _ Hi), (enriched_longitude d locs i _ Hi).
  assert (dict_get get_coordinates loc = None) as Hnone.
  { destruct loc; cbn; try done. by destruct (Hloc s). }
  unfold coordinates_of. by rewrite Hnone.
Qed.

(** C6. Enrichment returns a new object and leaves the world as it was:
    the input frame and every other object are unchanged, no file and
    nothing on the page is touched; the result has the input's rows and,
    apart from Latitude and Longitude, the input's columns in the
    input's order with the input's values. *)
Theorem enrich_leaves_input_unchanged w (r : nat) d locs :
  heap w !! r = Some d ->
  wf d ->
  column d (py "Locality") = Some locs ->
  exists r' w' d',
    enrich_with_coords r w = (Ok r', w')
    /\ r' ≠ r
    /\ heap w' !! r = Some d
    /\ (forall r0 d0, heap w !! r0 = Some d0 -> heap w' !! r0 = Some d0)
    /\ files w' = files w
    /\ page w' = page w
    /\ heap w' !! r' = Some d'
    /\ nrows d' = nrows d
    /\ (forall k, k ≠ py "Latitude" -> k ≠ py "Longitude" ->
          column d' k = column d k)
    /\ filter (fun k => k ∉ coordinate_labels) (labels d')
       = filter (fun k => k ∉ coordinate_labels) (labels d)
    /\ is_Some (column d' (py "Latitude"))
    /\ is_Some (column d' (py "Longitude")).
Proof.
  intros Hr Hwf Hlocs. eexists (length (heap w)), _, (enriched d locs).
  split; [by apply enrich_run|]. cbn [heap files page].
  pose proof (lookup_lt_Some _ _ _ Hr) as Hlt.
  split; [lia|]. split; [by apply lookup_app_l_Some|].
  split; [intros r0 d0 Hr0; by apply lookup_app_l_Some|].
  split; [done|]. split; [done|]. split; [apply lookup_new|]. split; [done|].
  split; [intros k; apply enriched_other|]. split.
  - unfold enriched, labels, set_column. cbn [columns].
    rewrite !assign_labels.
    assert (forall (l : list (list N)) k, k ∈ coordinate_labels ->
      filter (fun k => k ∉ coordinate_labels) (l ++ [k])
      = filter (fun k => k ∉ coordinate_labels) l) as Hdrop.
    { intros l k Hk. rewrite filter_app, filter_cons_False by tauto.
      by rewrite filter_nil, app_nil_r. }
    assert (py "Latitude" ∈ coordinate_labels) as Hlat by (left).
    assert (py "Longitude" ∈ coordinate_labels) as Hlon by (right; left).
    repeat case_decide; by rewrite ?Hdrop.
  - unfold enriched. rewrite column_set_ne by label_neq.
    by rewrite !column_set_eq.
Qed.

(** C10. Enrichment keeps the shape of the table: the same number of
    rows, and the Name, Address, Locality, profit text and Profit
    columns hold, row by row and in the same order, what they held in
    the input. *)
Theorem enrich_preserves_rows w (r : nat) d locs :
  heap w !! r = Some d ->
  wf d ->
  column d (py "Locality") = Some locs ->
  exists w' d',
    enrich_with_coords r w = (Ok (length (heap w)), w')
    /\ heap w' !! length (heap w) = Some d'
    /\ wf d'
    /\ nrows d' = nrows d
    /\ (forall k,
          k ∈ [py "Name"; py "Address"; py "Locality"; profit_label; py "Profit"] ->
          column d' k = column d k
          /\ forall i, at_ d' i k = at_ d i k).
Proof.
  intros Hr Hwf Hlocs. eexists _, (enriched d locs).
  split; [by apply enrich_run|]. split; [apply lookup_new|].
  split; [by apply enriched_wf|]. split; [done|].
  intros k Hk.
  assert (column (enriched d locs) k = column d k) as Hsame.
  { apply enriched_other; intros ->; revert Hk; by_compute_false. }
  split; [done|]. intros i. unfold at_. by rewrite Hsame.
Qed.

End EnricherClaims.

Section OrchestratorClaims.

Context `{FloatRepr}.

Implicit Types (w : world) (d : DataFrame) (col locs : list cell).

Lemma main_outcome w script p d col locs :
  p = (if bool_decide (is_Some (files w !! local_csv script))
       then local_csv script else parent_csv script) ->
  files w !! p = Some (File (Some d)) ->
  wf d ->
  column d profit_label = Some col ->
  column d (py "Locality") = Some locs ->
  exists out w' rest,
    main script w = (out, w')
    /\ files w' = files w
    /\ heap w' = heap (after_table w d col locs)
    /\ page w' = page (after_table w d col locs) ++ rest
    /\ Forall (fun e => ~ is_table_view e) rest.
Proof.
  intros Hp Hfile Hwf Hcol Hlocs.
  rewrite (main_run w script p d col locs) by done.
  destruct (charts_draws_only (S (length (heap w))) (after_table w d col locs))
    as (Hfiles & Hheap & rest & Hpage & Hrest).
  destruct (charts _ _) as [out w']. cbn [snd] in *. by exists out, w', rest.
Qed.

Lemma main_preamble w script :
  main script w
  = (found ← path_exists (local_csv script);
     df ← load_data (if (found : bool) then local_csv script else parent_csv script);
     df ← enrich_with_coords df;
     emit (header (py "Data Table"));;
     shown ← drop df [py "Latitude"; py "Longitude"];
     table ← deref shown;
     emit (dataframe table);;
     emit (header (py "Latest Profit After Tax (Euro)"));;
     build_bar_chart df;;
     emit (header (py "Map of Agents with Connectors"));;
     build_map df)
      (mkWorld (files w) (heap w)
         (page w ++ [set_page_config (py "Belgian Real‑estate Agents") (py "wide");
                     title (py "Belgian Real‑estate Agents: Data Overview")])).
Proof.
  unfold main. eapply bind_ok; [reflexivity|]. eapply bind_ok; [reflexivity|].
  cbn [heap files page]. by rewrite <- app_assoc.
Qed.

(** C7. When the resolved file holds a table with the profit and
    Locality columns, the page gets exactly one table view, right after
    the "Data Table" header.  Its frame is the enriched frame without
    Latitude and Longitude: the other columns in the same order, with
    the same cells in the same row order, which for all but Profit are
    the cells read from the file. *)
Theorem table_view_omits_coordinates w script (p : list (list N)) d col locs :
  p = (if bool_decide (is_Some (files w !! local_csv script))
       then local_csv script else parent_csv script) ->
  files w !! p = Some (File (Some d)) ->
  wf d ->
  column d profit_label = Some col ->
  column d (py "Locality") = Some locs ->
  exists out w' table full rest,
    main script w = (out, w')
    /\ full = enriched (loaded d col) locs
    /\ heap w' !! S (length (heap w)) = Some full
    /\ page w'
       = page w
         ++ [set_page_config (py "Belgian Real‑estate Agents") (py "wide");
             title (py "Belgian Real‑estate Agents: Data Overview");
             header (py "Data Table");
             dataframe table]
         ++ rest
    /\ Forall (fun e => ~ is_table_view e) rest
    /\ labels table = filter (fun k => k ∉ coordinate_labels) (labels full)
    /\ nrows table = nrows full
    /\ nrows table = nrows d
    /\ (forall k, k ∉ coordinate_labels -> column table k = column full k)
    /\ (forall k, k ∈ coordinate_labels -> column table k = None)
    /\ (forall k, k ∉ coordinate_labels -> k ≠ py "Profit" ->
          column table k = column d k).
Proof.
  intros Hp Hfile Hwf Hcol Hlocs.
  destruct (main_outcome w script p d col locs) as
    (out & w' & rest & Hmain & _ & Hheap & Hpage & Hrest); [done..|].
  exists out, w', (shown d col locs), (enriched (loaded d col) locs), rest.
  split; [done|]. split; [done|]. split.
  { rewrite Hheap. unfold after_table. cbn [heap].
    by rewrite lookup_app_r, Nat.sub_succ_l, Nat.sub_diag by lia. }
  split; [rewrite Hpage; unfold after_table; cbn [page]; by rewrite <- app_assoc|].
  split; [done|]. split; [apply labels_without|]. split; [done|]. split; [done|].
  unfold shown. split_and!.
  - intros k Hk. rewrite column_without. by rewrite decide_False.
  - intros k Hk. rewrite column_without. by rewrite decide_True.
  - intros k Hk Hprofit. rewrite column_without, decide_False by done.
    rewrite enriched_other, loaded_other; [done..| |].
    + intros ->. apply Hk. left.
    + intros ->. apply Hk. right. left.
Qed.

(** C8. [main] tries the candidate next to the program first and the
    one in the parent directory second.  A table at the first candidate
    is the one loaded, whatever the second holds; with nothing at the
    first, a table at the second is loaded; a first candidate that
    exists is chosen even when it cannot be read; with neither
    candidate present the run stops on [FileNotFoundError] with only
    the page configuration and title done: no header, no view. *)
Theorem main_resolves_csv_path w script :
  (forall d col locs,
     files w !! local_csv script = Some (File (Some d)) ->
     wf d ->
     column d profit_label = Some col ->
     column d (py "Locality") = Some locs ->
     exists out w',
       main script w = (out, w')
       /\ heap w' !! length (heap w) = Some (loaded d col))
  /\ (forall d col locs,
        files w !! local_csv script = None ->
        files w !! parent_csv script = Some (File (Some d)) ->
        wf d ->
        column d profit_label = Some col ->
        column d (py "Locality") = Some locs ->
        exists out w',
          main script w = (out, w')
          /\ heap w' !! length (heap w) = Some (loaded d col))
  /\ (files w !! local_csv script = Some Directory ->
      main script w
      = (Raise (IsADirectoryError (local_csv script)),
         mkWorld (files w) (heap w)
           (page w ++ [set_page_config (py "Belgian Real‑estate Agents") (py "wide");
                       title (py "Belgian Real‑estate Agents: Data Overview")])))
  /\ (files w !! local_csv script = None ->
      files w !! parent_csv script = None ->
      main script w
      = (Raise (FileNotFoundError (parent_csv script)),
         mkWorld (files w) (heap w)
           (page w ++ [set_page_config (py "Belgian Real‑estate Agents") (py "wide");
                       title (py "Belgian Real‑estate Agents: Data Overview")]))).
Proof.
  split_and!.
  - intros d col locs Hlocal Hwf Hcol Hlocs.
    destruct (main_outcome w script (local_csv script) d col locs) as
      (out & w' & rest & Hmain & _ & Hheap & _); [|done..|].
    { rewrite Hlocal. by rewrite bool_decide_true. }
    exists out, w'. split; [done|]. rewrite Hheap. unfold after_table. cbn [heap].
    by rewrite lookup_app_r, Nat.sub_diag by lia.
  - intros d col locs Hlocal Hparent Hwf Hcol Hlocs.
    destruct (main_outcome w script (parent_csv script) d col locs) as
      (out & w' & rest & Hmain & _ & Hheap & _); [|done..|].
    { rewrite Hlocal. rewrite bool_decide_false; [done | apply is_Some_None]. }
    exists out, w'. split; [done|]. rewrite Hheap. unfold after_table. cbn [heap].
    by rewrite lookup_app_r, Nat.sub_diag by lia.
  - intros Hlocal. rewrite main_preamble.
    eapply bind_ok; [reflexivity|]. cbn [files]. rewrite Hlocal.
    rewrite bool_decide_true by done.
    apply bind_raise. unfold load_data. apply bind_raise.
    unfold read_csv. cbn [files]. by rewrite Hlocal.
  - intros Hlocal Hparent. rewrite main_preamble.
    eapply bind_ok; [reflexivity|]. cbn [files]. rewrite Hlocal.
    rewrite bool_decide_false by apply is_Some_None.
    apply bind_raise. unfold load_data. apply bind_raise.
    unfold read_csv. cbn [files]. by rewrite Hparent.
Qed.

End OrchestratorClaims.

(** * The claims on the sample run *)

Ltac holds_by_decision := apply (bool_decide_unpack _); vm_compute; exact I.

Ltac differs := let E := fresh in intros E; vm_compute in E; discriminate E.

Lemma load_data_cleans_profit_text_witness :
  exists w' d',
    @load_data Sample.repr Sample.beside Sample.world_local = (Ok 0%nat, w')
    /\ heap w' !! 0%nat = Some d'
    /\ at_ d' 0 (py "Profit") = Some (VFloat (Fin 1234))
    /\ at_ d' 1 (py "Profit") = Some (VFloat (Fin 45)).
Proof.
  destruct (@load_data_cleans_profit_text Sample.repr Sample.world_local
              Sample.beside Sample.table Sample.profit_texts)
    as (w' & d' & Hrun & Hheap & Hrows).
  - vm_compute. reflexivity.
  - holds_by_decision.
  - vm_compute. reflexivity.
  - exists w', d'. split; [exact Hrun|]. split; [exact Hheap|].
    destruct (Hrows 0%nat (VStr (py "€1,234 ")) eq_refl) as (_ & _ & Hfirst & _).
    destruct (Hrows 1%nat (VStr (py "€ 45.000")) eq_refl) as (_ & _ & _ & Hsecond).
    split; [apply Hfirst; reflexivity | apply Hsecond; reflexivity].
Defined.

Lemma load_data_unparsable_profit_is_missing_witness :
  exists w' d',
    @load_data Sample.repr Sample.beside Sample.world_local = (Ok 0%nat, w')
    /\ heap w' !! 0%nat = Some d'
    /\ at_ d' 2 (py "Profit") = Some (VFloat NaN)
    /\ column d' (py "Name") = column Sample.table (py "Name").
Proof.
  destruct (@load_data_unparsable_profit_is_missing Sample.repr Sample.world_local
              Sample.beside Sample.table Sample.profit_texts)
    as (w' & d' & Hrun & Hheap & _ & Hother & _ & Hna).
  - vm_compute. reflexivity.
  - holds_by_decision.
  - vm_compute. reflexivity.
  - exists w', d'. split; [exact Hrun|]. split; [exact Hheap|].
    split; [apply Hna; reflexivity | apply Hother; differs].
Defined.



Lemma enrich_assigns_coordinates_to_every_row_witness :
  exists w' d',
    enrich_with_coords 0 Sample.world_loaded = (Ok 1%nat, w')
    /\ heap w' !! 1%nat = Some d'
    /\ exists lat lon : Q,
         at_ d' 2 (py "Latitude") = Some (VFloat (Fin lat))
         /\ at_ d' 2 (py "Longitude") = Some (VFloat (Fin lon)).
Proof.
  destruct (enrich_assigns_coordinates_to_every_row Sample.world_loaded 0
              Sample.table Sample.localities)
    as (w' & d' & Hrun & Hheap & _ & Hrows).
  - reflexivity.
  - holds_by_decision.
  - vm_compute. reflexivity.
  - exists w', d'. split; [exact Hrun|]. split; [exact Hheap|].
    destruct (Hrows 2%nat) as (lat & lon & Hlat & Hlon & _); [simpl; lia|].
    exists lat, lon. split; [exact Hlat | exact Hlon].
Defined.

Lemma enrich_looks_up_locality_witness :
  exists w' d',
    enrich_with_coords 0 Sample.world_loaded = (Ok 1%nat, w')
    /\ heap w' !! 1%nat = Some d'
    /\ at_ d' 0 (py "Latitude") = Some (VFloat (Fin 50.7219))
    /\ at_ d' 0 (py "Longitude") = Some (VFloat (Fin 4.3997))
    /\ at_ d' 1 (py "Latitude") = Some (VFloat (Fin 50.8466))
    /\ at_ d' 1 (py "Longitude") = Some (VFloat (Fin 4.3528)).
Proof.
  destruct (enrich_looks_up_locality Sample.world_loaded 0
              Sample.table Sample.localities)
    as (w' & d' & Hrun & Hheap & _ & _ & _ & Hkey & Hother).
  - reflexivity.
  - holds_by_decision.
  - vm_compute. reflexivity.
  - exists w', d'. split; [exact Hrun|]. split; [exact Hheap|].
    destruct (Hkey 0%nat (py "Waterloo") (Fin 50.7219) (Fin 4.3997)) as [Hlat Hlon];
      [reflexivity | vm_compute; reflexivity |].
    destruct (Hother 1%nat (VStr (py "Unknown Town"))) as [Hlat' Hlon'];
      [reflexivity | intros s [= <-]; vm_compute; reflexivity |].
    repeat split; assumption.
Defined.

Lemma enrich_defaults_on_non_text_locality_witness :
  exists w' d',
    enrich_with_coords 0 Sample.world_loaded = (Ok 1%nat, w')
    /\ heap w' !! 1%nat = Some d'
    /\ at_ d' 2 (py "Latitude") = Some (VFloat (Fin 50.8466))
    /\ at_ d' 2 (py "Longitude") = Some (VFloat (Fin 4.3528)).
Proof.
  apply (enrich_defaults_on_non_text_locality Sample.world_loaded 0
           Sample.table Sample.localities 2 (VFloat NaN)).
  - reflexivity.
  - holds_by_decision.
  - vm_compute. reflexivity.
  - reflexivity.
  - intros s. discriminate.
Defined.

Lemma enrich_leaves_input_unchanged_witness :
  exists r' w' d',
    enrich_with_coords 0 Sample.world_loaded = (Ok r', w')
    /\ r' ≠ 0%nat
    /\ heap w' !! 0%nat = Some Sample.table
    /\ page w' = []
    /\ heap w' !! r' = Some d'
    /\ column d' (py "Name") = column Sample.table (py "Name").
Proof.
  destruct (enrich_leaves_input_unchanged Sample.world_loaded 0
              Sample.table Sample.localities)
    as (r' & w' & d' & Hrun & Hnew & Hinput & _ & _ & Hpage & Hheap & _ & Hcols & _).
  - reflexivity.
  - holds_by_decision.
  - vm_compute. reflexivity.
  - exists r', w', d'. split; [exact Hrun|]. split; [exact Hnew|].
    split; [exact Hinput|]. split; [exact Hpage|]. split; [exact Hheap|].
    apply Hcols; differs.
Defined.

Lemma enrich_preserves_rows_witness :
  exists w' d',
    enrich_with_coords 0 Sample.world_loaded = (Ok 1%nat, w')
    /\ heap w' !! 1%nat = Some d'
    /\ nrows d' = 4%nat
    /\ column d' (py "Locality") = column Sample.table (py "Locality").
Proof.
  destruct (enrich_preserves_rows Sample.world_loaded 0
              Sample.table Sample.localities)
    as (w' & d' & Hrun & Hheap & _ & Hrows & Hcols).
  - reflexivity.
  - holds_by_decision.
  - vm_compute. reflexivity.
  - exists w', d'. split; [exact Hrun|]. split; [exact Hheap|].
    split; [exact Hrows|]. apply Hcols. holds_by_decision.
Defined.

Lemma table_view_omits_coordinates_witness :
  exists out w' table rest,
    @main Sample.repr Sample.script Sample.world_local = (out, w')
    /\ page w'
       = [set_page_config (py "Belgian Real‑estate Agents") (py "wide");
          title (py "Belgian Real‑estate Agents: Data Overview");
          header (py "Data Table");
          dataframe table] ++ rest
    /\ column table (py "Latitude") = None
    /\ column table (py "Longitude") = None
    /\ column table (py "Name") = column Sample.table (py "Name").
Proof.
  destruct (@table_view_omits_coordinates Sample.repr Sample.world_local Sample.script
              Sample.beside Sample.table Sample.profit_texts Sample.localities)
    as (out & w' & table & full & rest & Hrun & _ & _ & Hpage & _ & _ & _ & _
        & _ & Hgone & Hkept).
  - vm_compute. reflexivity.
  - vm_compute. reflexivity.
  - holds_by_decision.
  - vm_compute. reflexivity.
  - vm_compute. reflexivity.
  - exists out, w', table, rest. split; [exact Hrun|]. split; [exact Hpage|].
    split; [apply Hgone; holds_by_decision|].
    split; [apply Hgone; holds_by_decision|].
    apply Hkept; [|differs]. intros Hin. revert Hin. by_compute_false.
Defined.

Lemma main_resolves_csv_path_witness :
  (exists out w',
     @main Sample.repr Sample.script Sample.world_local = (out, w')
     /\ heap w' !! 0%nat = Some (@loaded Sample.repr Sample.table Sample.profit_texts))
  /\ (exists out w',
        @main Sample.repr Sample.script Sample.world_parent = (out, w')
        /\ heap w' !! 0%nat = Some (@loaded Sample.repr Sample.table Sample.profit_texts))
  /\ (@main Sample.repr Sample.script Sample.world_directory).1
     = Raise (IsADirectoryError Sample.beside)
  /\ (@main Sample.repr Sample.script Sample.world_empty).1
     = Raise (FileNotFoundError Sample.above).
Proof.
  split; [|split; [|split]].
  - destruct (@main_resolves_csv_path Sample.repr Sample.world_local Sample.script)
      as (Hlocal & _).
    apply (Hlocal Sample.table Sample.profit_texts Sample.localities).
    + vm_compute. reflexivity.
    + holds_by_decision.
    + vm_compute. reflexivity.
    + vm_compute. reflexivity.
  - destruct (@main_resolves_csv_path Sample.repr Sample.world_parent Sample.script)
      as (_ & Hparent & _).
    apply (Hparent Sample.table Sample.profit_texts Sample.localities).
    + vm_compute. reflexivity.
    + vm_compute. reflexivity.
    + holds_by_decision.
    + vm_compute. reflexivity.
    + vm_compute. reflexivity.
  - destruct (@main_resolves_csv_path Sample.repr Sample.world_directory Sample.script)
      as (_ & _ & Hdir & _).
    rewrite Hdir; [reflexivity|]. vm_compute. reflexivity.
  - destruct (@main_resolves_csv_path Sample.repr Sample.world_empty Sample.script)
      as (_ & _ & _ & Hnone).
    rewrite Hnone; [reflexivity| |]; vm_compute; reflexivity.
Defined.

(** * Further properties *)

(** ** The scanner consumes scanner characters only *)

Lemma consumed_refl s : consumed s s.
Proof. by exists []. Qed.

Lemma consumed_trans s t u : consumed s t -> consumed t u -> consumed s u.
Proof.
  intros (p1 & -> & H1) (p2 & -> & H2). exists (p1 ++ p2).
  split; [by rewrite app_assoc | by apply Forall_app].
Qed.

Lemma consumed_cons c s t :
  scanner_char c = true -> consumed s t -> consumed (c :: s) t.
Proof. intros Hc (pre & -> & Hpre). exists (c :: pre). split; [done | by constructor]. Qed.

Lemma isspace_ascii_scanner c : isspace_ascii c = true -> scanner_char c = true.
Proof. unfold scanner_char. intros ->. by rewrite orb_true_r. Qed.

Lemma isdigit_scanner c : isdigit c = true -> scanner_char c = true.
Proof. unfold scanner_char. by intros ->. Qed.

Lemma skip_space_consumed s : consumed s (skip_space s).
Proof.
  induction s as [|c s IH]; cbn; [apply consumed_refl|].
  destruct (isspace_ascii c) eqn:Hc; [|apply consumed_refl].
  by apply consumed_cons; [apply isspace_ascii_scanner|].
Qed.

Lemma read_sign_consumed p : consumed p (read_sign p).2.
Proof.
  unfold read_sign. destruct p as [|c p]; [apply consumed_refl|].
  destruct (N.eqb_spec c 45) as [->|]; [by apply consumed_cons; [|apply consumed_refl]|].
  destruct (N.eqb_spec c 43) as [->|]; [by apply consumed_cons; [|apply consumed_refl]|].
  apply consumed_refl.
Qed.

Lemma read_digits_consumed number count p : consumed p (read_digits number count p).2.
Proof.
  revert number count. induction p as [|c p IH]; intros number count; cbn;
    [apply consumed_refl|].
  destruct (isdigit c) eqn:Hc; [|apply consumed_refl].
  apply consumed_cons; [by apply isdigit_scanner | apply IH].
Qed.

Lemma xstrtod_consumed s x rest : xstrtod s = Some (x, rest) -> consumed s rest.
Proof.
  unfold xstrtod.
  pose proof (skip_space_consumed s) as H0.
  pose proof (read_sign_consumed (skip_space s)) as H1.
  destruct (read_sign (skip_space s)) as [negative p1]. cbn [snd] in H1.
  pose proof (read_digits_consumed 0 O p1) as H2.
  destruct (read_digits 0 O p1) as [[number num_digits] p2]. cbn [snd] in H2.
  assert (consumed s p2) as H02 by eauto using consumed_trans. clear H0 H1 H2.
  set (frac := match p2 with
               | c :: p' => if c =? 46 then read_digits number O p' else (number, O, p2)
               | [] => (number, O, p2)
               end).
  assert (consumed p2 frac.2) as H3.
  { subst frac. destruct p2 as [|c p']; [apply consumed_refl|].
    destruct (N.eqb_spec c 46) as [->|]; [|apply consumed_refl].
    apply consumed_cons; [done | apply read_digits_consumed]. }
  destruct frac as [[number' num_decimals] p3]. cbn [snd] in H3.
  destruct (_ =? _)%nat; [done|].
  set (ex := match p3 with
             | c :: p' =>
                 if (c =? 101) || (c =? 69) then
                   let '(eneg, p1) := read_sign p' in
                   let '(n, exp_digits, p2) := read_digits 0 O p1 in
                   if (exp_digits =? 0)%nat then (0%Z, p3)
                   else ((if eneg then - Z.of_N n else Z.of_N n)%Z, p2)
                 else (0%Z, p3)
             | [] => (0%Z, p3)
             end).
  assert (consumed p3 ex.2) as H4.
  { subst ex. destruct p3 as [|c p']; [apply consumed_refl|].
    destruct ((c =? 101) || (c =? 69)) eqn:Hc; [|apply consumed_refl].
    pose proof (read_sign_consumed p') as Hs.
    destruct (read_sign p') as [eneg p4]. cbn [snd] in Hs.
    pose proof (read_digits_consumed 0 O p4) as Hd.
    destruct (read_digits 0 O p4) as [[n exp_digits] p5]. cbn [snd] in Hd.
    destruct (_ =? _)%nat; [apply consumed_refl|]. cbn [snd].
    apply consumed_cons; [|eauto using consumed_trans].
    unfold scanner_char. apply orb_true_iff in Hc as [->| ->];
      by rewrite ?orb_true_r. }
  destruct ex as [exponent p6]. cbn [snd] in H4.
  intros [= _ <-].
  eauto using consumed_trans, skip_space_consumed.
Qed.

Lemma strcasecmp_eq_chars s word c :
  strcasecmp_eq s word = true -> c ∈ s -> tolower c ∈ word.
Proof.
  unfold strcasecmp_eq. intros Heq%bool_decide_eq_true Hc. rewrite <- Heq.
  by apply list_elem_of_fmap_2.
Qed.

Lemma floatify_foreign_char s c :
  c ∈ s -> numeric_char c = false -> floatify s = None.
Proof.
  intros Hc Hnum. unfold numeric_char in Hnum.
  apply orb_false_iff in Hnum as [Hscan Hinf].
  assert (forall word, (forall x, x ∈ word -> x ∈ py "+-infinity") ->
            strcasecmp_eq s word = false) as Hword.
  { intros word Hsub. destruct (strcasecmp_eq s word) eqn:Heq; [|done].
    pose proof (strcasecmp_eq_chars s word c Heq Hc) as Hin.
    unfold infinity_char in Hinf. apply bool_decide_eq_false in Hinf.
    destruct Hinf. auto. }
  assert (forall word, bool_decide (word ⊆ py "+-infinity") = true ->
            strcasecmp_eq s word = false) as Hword'.
  { intros word Hsub%bool_decide_eq_true. apply Hword. intros x. apply Hsub. }
  unfold floatify.
  rewrite !Hword' by by_compute. cbn [orb].
  destruct (xstrtod s) as [[q rest]|] eqn:Hx; [|done].
  destruct rest as [|x rest]; [|done].
  apply xstrtod_consumed in Hx as (pre & -> & Hpre). rewrite app_nil_r in Hc.
  rewrite Forall_forall in Hpre. rewrite (Hpre c Hc) in Hscan. done.
Qed.

(** ** More on stripping and cleaning *)

Section CleaningFacts.

Implicit Types (s t : list N) (c : N).

Lemma elem_of_lstrip_nonspace c s : c ∈ s -> isspace c = false -> c ∈ lstrip s.
Proof.
  intros Hc Hns. induction s as [|a s IH]; cbn; [done|].
  destruct (isspace a) eqn:Ha; [|done].
  apply elem_of_cons in Hc as [->|Hc]; [congruence | auto].
Qed.

Lemma elem_of_strip_nonspace c s : c ∈ s -> isspace c = false -> c ∈ strip s.
Proof.
  intros Hc Hns. unfold strip, rstrip. rewrite elem_of_reverse.
  apply elem_of_lstrip_nonspace; [|done]. rewrite elem_of_reverse.
  by apply elem_of_lstrip_nonspace.
Qed.

Lemma lstrip_starts_clean s : starts_clean (lstrip s).
Proof. induction s as [|a s IH]; cbn; [done|]. by destruct (isspace a) eqn:Ha. Qed.

Lemma starts_clean_lstrip t : starts_clean t -> lstrip t = t.
Proof. destruct t as [|c t]; cbn; [done|]. by intros ->. Qed.

Lemma lstrip_suffix s : exists ws, s = ws ++ lstrip s.
Proof.
  induction s as [|a s [ws IH]]; cbn; [by exists []|].
  destruct (isspace a); [|by exists []]. exists (a :: ws). cbn. by rewrite <- IH.
Qed.

Lemma rstrip_prefix s : exists ws, s = rstrip s ++ ws.
Proof.
  destruct (lstrip_suffix (reverse s)) as [ws Hws]. exists (reverse ws).
  unfold rstrip. rewrite <- reverse_app, <- Hws. by rewrite reverse_involutive.
Qed.

Lemma rstrip_starts_clean s : starts_clean s -> starts_clean (rstrip s).
Proof.
  intros Hs. destruct (rstrip_prefix s) as [ws Hws].
  destruct (rstrip s) as [|c t]; [done|]. rewrite Hws in Hs. exact Hs.
Qed.

Lemma rstrip_rstrip s : rstrip (rstrip s) = rstrip s.
Proof.
  unfold rstrip. rewrite reverse_involutive.
  by rewrite (starts_clean_lstrip _ (lstrip_starts_clean _)).
Qed.

Lemma strip_starts_clean s : starts_clean (strip s).
Proof. apply rstrip_starts_clean, lstrip_starts_clean. Qed.

Lemma strip_ends_clean s : starts_clean (reverse (strip s)).
Proof.
  unfold strip, rstrip. rewrite reverse_involutive. apply lstrip_starts_clean.
Qed.

Lemma strip_strip s : strip (strip s) = strip s.
Proof.
  unfold strip at 1. rewrite (starts_clean_lstrip _ (strip_starts_clean s)).
  unfold strip. apply rstrip_rstrip.
Qed.

Lemma filter_all {A} (P : A -> Prop) `{forall x, Decision (P x)} (l : list A) :
  Forall P l -> filter P l = l.
Proof.
  induction 1 as [|x l Hx _ IH]; [done|]. by rewrite filter_cons_True, IH.
Qed.

Lemma clean_no_marks text c : c ∈ clean text -> c ∉ currency_marks.
Proof.
  rewrite clean_filter. intros Hc%elem_of_strip%list_elem_of_filter. tauto.
Qed.

Lemma elem_of_clean text c :
  c ∈ text -> c ∉ currency_marks -> isspace c = false -> c ∈ clean text.
Proof.
  intros Hc Hmark Hns. rewrite clean_filter.
  apply elem_of_strip_nonspace; [|done]. by apply list_elem_of_filter.
Qed.

Lemma digit_or_mark c :
  isdigit c = true \/ c ∈ currency_marks ->
  (c ∉ currency_marks <-> isdigit c = true).
Proof.
  intros [Hd|Hm]; split; try done.
  - intros _. by apply digit_not_currency_mark.
  - intros Hd. by apply digit_not_currency_mark in Hd.
Qed.

Lemma clean_currency_text t :
  currency_text t -> clean t = filter (fun c => isdigit c = true) t.
Proof.
  intros Ht. rewrite clean_filter.
  assert (filter (fun c => c ∉ currency_marks) t = filter (fun c => isdigit c = true) t)
    as ->.
  { induction Ht as [|c t Hc _ IH]; [done|].
    rewrite !filter_cons, IH. apply digit_or_mark in Hc.
    destruct (decide (c ∉ currency_marks)), (decide (isdigit c = true)); tauto. }
  apply strip_id. apply Forall_forall. intros c Hc%list_elem_of_filter.
  apply isdigit_not_isspace. tauto.
Qed.

End CleaningFacts.

(** ** Worlds that only grow *)

Lemma extends_refl w : extends w w.
Proof. by split_and!. Qed.

Lemma extends_trans w1 w2 w3 : extends w1 w2 -> extends w2 w3 -> extends w1 w3.
Proof.
  intros (Hf1 & Hh1 & Hp1) (Hf2 & Hh2 & Hp2).
  split_and!; [congruence | by etrans | by etrans].
Qed.

Lemma extends_alloc w d : extends w (mkWorld (files w) (heap w ++ [d]) (page w)).
Proof. split_and!; [done | by apply prefix_app_r | done]. Qed.

Lemma extends_emit w e : extends w (mkWorld (files w) (heap w) (page w ++ [e])).
Proof. split_and!; [done | done | by apply prefix_app_r]. Qed.

Lemma extends_bind {A B} (m : M A) (f : A -> M B) w :
  extends w (m w).2 ->
  (forall a w', extends w' (f a w').2) ->
  extends w ((m ≫= f) w).2.
Proof.
  intros Hm Hf. rewrite run_bind. destruct (m w) as [[a|e] w1]; cbn [snd] in *; [|done].
  eapply extends_trans; [exact Hm | apply Hf].
Qed.

(** ** Every outcome of the loader *)

Section LoaderOutcomes.

Context `{FloatRepr}.

Lemma load_data_cases w p :
  match files w !! p with
  | None => load_data p w = (Raise (FileNotFoundError p), w)
  | Some Directory => load_data p w = (Raise (IsADirectoryError p), w)
  | Some (File None) => load_data p w = (Raise (ReadError p), w)
  | Some (File (Some d)) =>
      match column d profit_label with
      | None =>
          load_data p w
          = (Raise (KeyError profit_label), mkWorld (files w) (heap w ++ [d]) (page w))
      | Some col =>
          if bool_decide (length col = nrows d)
          then load_data p w
               = (Ok (length (heap w)),
                  mkWorld (files w) (heap w ++ [loaded d col]) (page w))
          else load_data p w
               = (Raise ValueError, mkWorld (files w) (heap w ++ [d]) (page w))
      end
  end.
Proof.
  destruct (files w !! p) as [[|[d|]]|] eqn:Hp.
  - unfold load_data. apply bind_raise. unfold read_csv. by rewrite Hp.
  - destruct (column d profit_label) as [col|] eqn:Hcol;
      [|by apply load_data_no_profit_text].
    unfold load_data.
    case_bool_decide as Hlen.
    + eapply bind_ok; [by apply read_csv_run|].
      eapply bind_ok; [eapply getitem_run; [apply lookup_new|exact Hcol]|].
      eapply bind_ok; [unfold lift; by rewrite to_numeric_coerce_total|].
      eapply bind_ok; [eapply setitem_run; [apply lookup_new|]|].
      * rewrite !length_fmap. unfold cleaned. by rewrite !length_fmap.
      * cbn [heap files page]. by rewrite insert_new.
    + eapply bind_ok; [by apply read_csv_run|].
      eapply bind_ok; [eapply getitem_run; [apply lookup_new|exact Hcol]|].
      eapply bind_ok; [unfold lift; by rewrite to_numeric_coerce_total|].
      apply bind_raise. unfold setitem.
      eapply bind_ok; [apply deref_run, lookup_new|].
      rewrite bool_decide_false; [done|].
      rewrite !length_fmap. unfold cleaned. by rewrite !length_fmap.
  - unfold load_data. apply bind_raise. unfold read_csv. by rewrite Hp.
  - unfold load_data. apply bind_raise. unfold read_csv. by rewrite Hp.
Qed.

Lemma load_data_extends w p : extends w (load_data p w).2.
Proof.
  pose proof (load_data_cases w p) as Hcases.
  destruct (files w !! p) as [[|[d|]]|]; try (rewrite Hcases; apply extends_refl).
  destruct (column d profit_label) as [col|]; [|rewrite Hcases; apply extends_alloc].
  case_bool_decide; rewrite Hcases; apply extends_alloc.
Qed.

Lemma load_data_page w p : page (load_data p w).2 = page w.
Proof.
  pose proof (load_data_cases w p) as Hcases.
  destruct (files w !! p) as [[|[d|]]|]; try (by rewrite Hcases).
  destruct (column d profit_label) as [col|]; [|by rewrite Hcases].
  case_bool_decide; by rewrite Hcases.
Qed.

End LoaderOutcomes.

(** ** Every outcome of the enricher *)

Lemma enrich_cases w (r : nat) :
  match heap w !! r with
  | None => enrich_with_coords r w = (Raise InvalidRef, w)
  | Some d =>
      match column d (py "Locality") with
      | None => enrich_with_coords r w = (Raise (KeyError (py "Locality")), w)
      | Some locs =>
          if bool_decide (length locs = nrows d)
          then enrich_with_coords r w
               = (Ok (length (heap w)),
                  mkWorld (files w) (heap w ++ [enriched d locs]) (page w))
          else enrich_with_coords r w
               = (Raise ValueError, mkWorld (files w) (heap w ++ [d]) (page w))
      end
  end.
Proof.
  destruct (heap w !! r) as [d|] eqn:Hr.
  - destruct (column d (py "Locality")) as [locs|] eqn:Hlocs.
    + unfold enrich_with_coords. case_bool_decide as Hlen.
      * eapply bind_ok; [by eapply getitem_run|].
        eapply bind_ok; [unfold lift; by rewrite enrich_loop_run|].
        cbn [app]. eapply bind_ok; [by eapply copy_run|].
        eapply bind_ok; [eapply setitem_run; [apply lookup_new|by rewrite length_fmap]|].
        cbn [heap files page]. rewrite insert_new.
        eapply bind_ok; [eapply setitem_run; [apply lookup_new|by rewrite length_fmap]|].
        cbn [heap files page]. by rewrite insert_new.
      * eapply bind_ok; [by eapply getitem_run|].
        eapply bind_ok; [unfold lift; by rewrite enrich_loop_run|].
        cbn [app]. eapply bind_ok; [by eapply copy_run|].
        apply bind_raise. unfold setitem.
        eapply bind_ok; [apply deref_run, lookup_new|].
        rewrite bool_decide_false; [done | by rewrite length_fmap].
    + unfold enrich_with_coords. apply bind_raise. by eapply getitem_missing.
  - unfold enrich_with_coords. apply bind_raise. unfold getitem.
    apply bind_raise. unfold deref. by rewrite Hr.
Qed.

Lemma enrich_extends w (r : nat) : extends w (enrich_with_coords r w).2.
Proof.
  pose proof (enrich_cases w r) as Hcases.
  destruct (heap w !! r) as [d|]; [|rewrite Hcases; apply extends_refl].
  destruct (column d (py "Locality")) as [locs|]; [|rewrite Hcases; apply extends_refl].
  case_bool_decide; rewrite Hcases; apply extends_alloc.
Qed.

Lemma assign_id k v cols : assoc k cols = Some v -> assign k v cols = cols.
Proof.
  induction cols as [|[k' v'] cols IH]; cbn; [done|].
  case_bool_decide as Hk; [by intros [= ->] | intros Hv; by rewrite IH].
Qed.

Lemma enriched_locality d locs :
  column d (py "Locality") = Some locs ->
  column (enriched d locs) (py "Locality") = Some locs.
Proof. intros Hlocs. rewrite enriched_other; [done | label_neq | label_neq]. Qed.

Lemma enriched_enriched d locs : enriched (enriched d locs) locs = enriched d locs.
Proof.
  unfold enriched at 1. unfold set_column. cbn [nrows columns].
  rewrite (assign_id (py "Latitude")).
  - rewrite (assign_id (py "Longitude")); [by destruct (enriched d locs)|].
    apply column_set_eq.
  - unfold enriched. fold (column (set_column (set_column d (py "Latitude")
      ((fun loc => VFloat (coordinates_of loc).1) <$> locs)) (py "Longitude")
      ((fun loc => VFloat (coordinates_of loc).2) <$> locs)) (py "Latitude")).
    rewrite column_set_ne by label_neq. apply column_set_eq.
Qed.

Lemma enriched_labels d locs :
  labels (enriched d locs)
  = (let l1 := if decide (py "Latitude" ∈ labels d) then labels d
               else labels d ++ [py "Latitude"] in
     if decide (py "Longitude" ∈ l1) then l1 else l1 ++ [py "Longitude"]).
Proof.
  unfold enriched, labels, set_column. cbn [columns]. by rewrite !assign_labels.
Qed.

(** ** The map *)

Lemma flat_map_pairs_length {A B} (g : A -> list B) (xs : list A) :
  (forall x, x ∈ xs -> length (g x) = 2%nat) ->
  length (flat_map g xs) = (2 * length xs)%nat.
Proof.
  induction xs as [|x xs IH]; intros Hg; cbn [flat_map length]; [done|].
  rewrite length_app, Hg by left. rewrite IH; [lia|].
  intros y Hy. apply Hg. by right.
Qed.

Lemma flat_map_pairs_lookup {A B} (g : A -> list B) (xs : list A) (i : nat) x a b :
  (forall y, y ∈ xs -> length (g y) = 2%nat) ->
  xs !! i = Some x ->
  g x = [a; b] ->
  flat_map g xs !! (2 * i)%nat = Some a /\ flat_map g xs !! (2 * i + 1)%nat = Some b.
Proof.
  revert i. induction xs as [|y xs IH]; intros i Hg Hi Hx; [done|].
  cbn [flat_map]. destruct i as [|i].
  - injection Hi as ->. rewrite Hx. by split.
  - cbn in Hi. assert (length (g y) = 2%nat) as Hy by (apply Hg; left).
    destruct (IH i) as [Ha Hb]; [intros z Hz; apply Hg; by right|done..|].
    rewrite !lookup_app_r by lia.
    replace (2 * S i - length (g y))%nat with (2 * i)%nat by lia.
    replace (2 * S i + 1 - length (g y))%nat with (2 * i + 1)%nat by lia.
    by split.
Qed.

Section MapFacts.

Context `{FloatRepr}.

Lemma row_cell_float d x : row_cell d (VFloat x) = VFloat x.
Proof. unfold row_cell. by destruct (values_dtype d). Qed.

Lemma row_cell_text d s : row_cell d (VStr s) = VStr s.
Proof. unfold row_cell. by destruct (values_dtype d). Qed.

Lemma row_cell_not_int d c : is_int c = false -> row_cell d c = c.
Proof. unfold row_cell. by destruct (values_dtype d), c. Qed.

Lemma map_row_ok d (i : nat) (y x : Q) name address :
  at_ d i (py "Latitude") = Some (VFloat (Fin y)) ->
  at_ d i (py "Longitude") = Some (VFloat (Fin x)) ->
  at_ d i (py "Name") = Some name ->
  at_ d i (py "Address") = Some address ->
  map_row d i
  = Ok [Marker (Fin y, Fin x) (popup_html (row_cell d name) (row_cell d address));
        connector (Fin y, Fin x)].
Proof.
  intros Hlat Hlon Hname Haddr. unfold map_row, row_get.
  by rewrite Hlat, Hlon, Hname, Haddr, !row_cell_float.
Qed.

Lemma map_rows_ok d (rows : list nat) (m : list layer) :
  (forall i, i ∈ rows -> exists added, map_row d i = Ok added) ->
  map_rows d rows m = Ok (m ++ flat_map (row_layers d) rows).
Proof.
  revert m. induction rows as [|i rows IH]; intros m Hrows; cbn [map_rows flat_map].
  - by rewrite app_nil_r.
  - destruct (Hrows i) as [added Hi]; [left|]. unfold row_layers at 1.
    rewrite Hi, IH, app_assoc; [done|]. intros j Hj. apply Hrows. by right.
Qed.

Lemma at_Some d (i : nat) k v c :
  column d k = Some v -> v !! i = Some c -> at_ d i k = Some c.
Proof. intros Hk Hi. unfold at_. by rewrite Hk. Qed.

Lemma at_None d (i : nat) k : column d k = None -> at_ d i k = None.
Proof. intros Hk. unfold at_. by rewrite Hk. Qed.

Lemma column_row d k v (i : nat) :
  wf d -> column d k = Some v -> (i < nrows d)%nat -> exists c, v !! i = Some c.
Proof.
  intros Hwf Hk Hi. apply lookup_lt_is_Some.
  by rewrite (column_length d k v Hwf Hk).
Qed.

Lemma map_row_rows d lats lons names addrs :
  wf d ->
  column d (py "Latitude") = Some lats ->
  column d (py "Longitude") = Some lons ->
  column d (py "Name") = Some names ->
  column d (py "Address") = Some addrs ->
  Forall finite_float lats ->
  Forall finite_float lons ->
  forall i, (i < nrows d)%nat ->
    exists (y x : Q) name address,
      lats !! i = Some (VFloat (Fin y)) /\ lons !! i = Some (VFloat (Fin x))
      /\ names !! i = Some name /\ addrs !! i = Some address
      /\ map_row d i
         = Ok [Marker (Fin y, Fin x)
                 (popup_html (row_cell d name) (row_cell d address));
               connector (Fin y, Fin x)].
Proof.
  intros Hwf Hlat Hlon Hname Haddr Hlats Hlons i Hi.
  destruct (column_row d _ _ i Hwf Hlat Hi) as [lat Hlati].
  destruct (column_row d _ _ i Hwf Hlon Hi) as [lon Hloni].
  destruct (column_row d _ _ i Hwf Hname Hi) as [name Hnamei].
  destruct (column_row d _ _ i Hwf Haddr Hi) as [address Haddri].
  rewrite Forall_forall in Hlats, Hlons.
  destruct (Hlats lat) as [y ->]; [by eapply list_elem_of_lookup_2|].
  destruct (Hlons lon) as [x ->]; [by eapply list_elem_of_lookup_2|].
  exists y, x, name, address. split_and!; [done..|].
  apply map_row_ok; by eapply at_Some.
Qed.

Lemma row_layers_pair d lats lons names addrs (i : nat) :
  wf d ->
  column d (py "Latitude") = Some lats ->
  column d (py "Longitude") = Some lons ->
  column d (py "Name") = Some names ->
  column d (py "Address") = Some addrs ->
  Forall finite_float lats ->
  Forall finite_float lons ->
  (i < nrows d)%nat ->
  length (row_layers d i) = 2%nat.
Proof.
  intros Hwf Hlat Hlon Hname Haddr Hlats Hlons Hi.
  destruct (map_row_rows d lats lons names addrs Hwf Hlat Hlon Hname Haddr
              Hlats Hlons i Hi)
    as (? & ? & ? & ? & _ & _ & _ & _ & Hrow).
  unfold row_layers. by rewrite Hrow.
Qed.

Lemma map_layers_length d lats lons names addrs :
  wf d ->
  column d (py "Latitude") = Some lats ->
  column d (py "Longitude") = Some lons ->
  column d (py "Name") = Some names ->
  column d (py "Address") = Some addrs ->
  Forall finite_float lats ->
  Forall finite_float lons ->
  length (flat_map (row_layers d) (seq 0 (nrows d))) = (2 * nrows d)%nat.
Proof.
  intros Hwf Hlat Hlon Hname Haddr Hlats Hlons.
  rewrite flat_map_pairs_length, length_seq; [done|].
  intros i Hi%elem_of_seq.
  apply (row_layers_pair d lats lons names addrs); [done..|lia].
Qed.

Lemma build_map_run w (r : nat) d lats lons names addrs :
  heap w !! r = Some d ->
  wf d ->
  column d (py "Latitude") = Some lats ->
  column d (py "Longitude") = Some lons ->
  column d (py "Name") = Some names ->
  column d (py "Address") = Some addrs ->
  Forall finite_float lats ->
  Forall finite_float lons ->
  build_map r w
  = (Ok tt,
     mkWorld (files w) (heap w)
       (page w ++ [folium_static
                     (mkMap center 8 (flat_map (row_layers d) (seq 0 (nrows d))))
                     700 500])).
Proof.
  intros Hr Hwf Hlat Hlon Hname Haddr Hlats Hlons.
  unfold build_map. eapply bind_ok; [by apply deref_run|].
  eapply bind_ok; [|reflexivity]. unfold lift.
  rewrite map_rows_ok; [done|].
  intros i Hi%elem_of_seq.
  destruct (map_row_rows d lats lons names addrs Hwf Hlat Hlon Hname Haddr
              Hlats Hlons i)
    as (? & ? & ? & ? & _ & _ & _ & _ & ->); [lia | eauto].
Qed.

Lemma enriched_coordinates d locs :
  exists lats lons,
    column (enriched d locs) (py "Latitude") = Some lats
    /\ column (enriched d locs) (py "Longitude") = Some lons
    /\ Forall finite_float lats /\ Forall finite_float lons.
Proof.
  eexists _, _. unfold enriched. split_and!.
  - rewrite column_set_ne by label_neq. apply column_set_eq.
  - apply column_set_eq.
  - apply Forall_fmap, Forall_forall. intros loc _. cbn.
    destruct (coordinates_of_finite loc) as (y & x & ->). by exists y.
  - apply Forall_fmap, Forall_forall. intros loc _. cbn.
    destruct (coordinates_of_finite loc) as (y & x & ->). by exists x.
Qed.

Lemma build_map_empty w (r : nat) d :
  heap w !! r = Some d ->
  nrows d = 0%nat ->
  build_map r w
  = (Ok tt,
     mkWorld (files w) (heap w) (page w ++ [folium_static (mkMap center 8 []) 700 500])).
Proof.
  intros Hr Hempty. unfold build_map. eapply bind_ok; [by apply deref_run|].
  rewrite Hempty. by eapply bind_ok.
Qed.

Lemma build_map_missing_name w (r : nat) d lats lons :
  heap w !! r = Some d ->
  wf d ->
  (0 < nrows d)%nat ->
  column d (py "Latitude") = Some lats ->
  column d (py "Longitude") = Some lons ->
  column d (py "Name") = None ->
  build_map r w = (Raise (KeyError (py "Name")), w).
Proof.
  intros Hr Hwf Hrows Hlat Hlon Hname.
  destruct (column_row d _ _ 0 Hwf Hlat Hrows) as [lat Hlat0].
  destruct (column_row d _ _ 0 Hwf Hlon Hrows) as [lon Hlon0].
  destruct (nrows d) as [|n] eqn:Hn; [lia|].
  unfold build_map. eapply bind_ok; [by apply deref_run|].
  apply bind_raise. unfold lift. rewrite Hn. cbn [seq map_rows].
  unfold map_row, row_get.
  by rewrite (at_Some d 0 _ _ _ Hlat Hlat0), (at_Some d 0 _ _ _ Hlon Hlon0),
    (at_None d 0 _ Hname).
Qed.

Lemma build_map_missing_address w (r : nat) d lats lons names :
  heap w !! r = Some d ->
  wf d ->
  (0 < nrows d)%nat ->
  column d (py "Latitude") = Some lats ->
  column d (py "Longitude") = Some lons ->
  column d (py "Name") = Some names ->
  column d (py "Address") = None ->
  build_map r w = (Raise (KeyError (py "Address")), w).
Proof.
  intros Hr Hwf Hrows Hlat Hlon Hname Haddr.
  destruct (column_row d _ _ 0 Hwf Hlat Hrows) as [lat Hlat0].
  destruct (column_row d _ _ 0 Hwf Hlon Hrows) as [lon Hlon0].
  destruct (column_row d _ _ 0 Hwf Hname Hrows) as [name Hname0].
  destruct (nrows d) as [|n] eqn:Hn; [lia|].
  unfold build_map. eapply bind_ok; [by apply deref_run|].
  apply bind_raise. unfold lift. rewrite Hn. cbn [seq map_rows].
  unfold map_row, row_get.
  by rewrite (at_Some d 0 _ _ _ Hlat Hlat0), (at_Some d 0 _ _ _ Hlon Hlon0),
    (at_Some d 0 _ _ _ Hname Hname0), (at_None d 0 _ Haddr).
Qed.

Lemma map_row_float_columns d lats lons names addrs (i : nat) :
  wf d ->
  column d (py "Latitude") = Some lats ->
  column d (py "Longitude") = Some lons ->
  column d (py "Name") = Some names ->
  column d (py "Address") = Some addrs ->
  Forall float_cell lats ->
  Forall float_cell lons ->
  (i < nrows d)%nat ->
  ((exists added, map_row d i = Ok added) \/ map_row d i = Raise ValueError)
  /\ (lats !! i = Some (VFloat NaN) \/ lons !! i = Some (VFloat NaN) ->
      map_row d i = Raise ValueError).
Proof.
  intros Hwf Hlat Hlon Hname Haddr Hlats Hlons Hi.
  destruct (column_row d _ _ i Hwf Hlat Hi) as [lat Hlati].
  destruct (column_row d _ _ i Hwf Hlon Hi) as [lon Hloni].
  destruct (column_row d _ _ i Hwf Hname Hi) as [name Hnamei].
  destruct (column_row d _ _ i Hwf Haddr Hi) as [address Haddri].
  rewrite Forall_forall in Hlats, Hlons.
  destruct (Hlats lat) as [y ->]; [by eapply list_elem_of_lookup_2|].
  destruct (Hlons lon) as [x ->]; [by eapply list_elem_of_lookup_2|].
  unfold map_row, row_get.
  rewrite (at_Some d i _ _ _ Hlat Hlati), (at_Some d i _ _ _ Hlon Hloni),
    (at_Some d i _ _ _ Hname Hnamei), (at_Some d i _ _ _ Haddr Haddri),
    !row_cell_float.
  rewrite Hlati, Hloni. cbv zeta. split.
  - destruct y, x; cbn [location_float]; eauto.
  - intros [[= ->]|[= ->]]; [done|]. by destruct y.
Qed.

Lemma map_rows_value_error d (rows : list nat) (m : list layer) :
  (forall j, j ∈ rows ->
     (exists added, map_row d j = Ok added) \/ map_row d j = Raise ValueError) ->
  (exists j, j ∈ rows /\ map_row d j = Raise ValueError) ->
  map_rows d rows m = Raise ValueError.
Proof.
  revert m. induction rows as [|i rows IH]; intros m Hall (j & Hj & Hfail).
  - by apply elem_of_nil in Hj.
  - cbn [map_rows]. destruct (Hall i) as [[added Hi]|Hi]; [left | | by rewrite Hi].
    rewrite Hi. apply IH; [intros k Hk; apply Hall; by right|].
    apply elem_of_cons in Hj as [->|Hj]; [congruence | eauto].
Qed.

End MapFacts.

(** ** The whole run *)

Section RunOutcomes.

Context `{FloatRepr}.

Lemma draws_only_extends {A} (m : M A) w : draws_only m -> extends w (m w).2.
Proof.
  intros Hm. destruct (Hm w) as (Hfiles & Hheap & rest & Hpage & _).
  split_and!; [done | by rewrite Hheap | rewrite Hpage; by apply prefix_app_r].
Qed.

Lemma drop_extends w (r : nat) ks : extends w (drop r ks w).2.
Proof.
  unfold drop. apply extends_bind.
  - apply draws_only_extends, draws_only_deref.
  - intros d w'. destruct (list_find _ _) as [[? ?]|]; [apply extends_refl|].
    apply extends_alloc.
Qed.

Lemma emit_extends w e : extends w (emit e w).2.
Proof. apply extends_emit. Qed.

Lemma build_bar_chart_run w (r : nat) d :
  heap w !! r = Some d ->
  is_Some (column d (py "Name")) ->
  is_Some (column d (py "Profit")) ->
  build_bar_chart r w
  = (Ok tt, mkWorld (files w) (heap w) (page w ++ [plotly_chart (bar_figure d) true])).
Proof.
  intros Hr [names Hname] [profit Hprofit]. unfold build_bar_chart.
  eapply bind_ok; [by apply deref_run|].
  assert (list_find (fun k => column d k = None) [py "Name"; py "Profit"] = None) as ->;
    [|done].
  apply list_find_None. repeat constructor; congruence.
Qed.

Lemma build_bar_chart_missing w (r : nat) d :
  heap w !! r = Some d ->
  column d (py "Name") = None \/ column d (py "Profit") = None ->
  build_bar_chart r w = (Raise ValueError, w).
Proof.
  intros Hr Hmiss. unfold build_bar_chart.
  eapply bind_ok; [by apply deref_run|].
  destruct (list_find _ _) as [[? ?]|] eqn:Hfind; [done|].
  apply list_find_None in Hfind.
  apply Forall_cons in Hfind as [Hname Hfind].
  apply Forall_cons in Hfind as [Hprofit _]. tauto.
Qed.

Lemma main_to_enricher w script p d col :
  p = (if bool_decide (is_Some (files w !! local_csv script))
       then local_csv script else parent_csv script) ->
  files w !! p = Some (File (Some d)) ->
  wf d ->
  column d profit_label = Some col ->
  main script w
  = (df ← enrich_with_coords (length (heap w));
     emit (header (py "Data Table"));;
     shown ← drop df [py "Latitude"; py "Longitude"];
     table ← deref shown;
     emit (dataframe table);;
     emit (header (py "Latest Profit After Tax (Euro)"));;
     build_bar_chart df;;
     emit (header (py "Map of Agents with Connectors"));;
     build_map df)
      (mkWorld (files w) (heap w ++ [loaded d col])
         (page w ++ [set_page_config (py "Belgian Real‑estate Agents") (py "wide");
                     title (py "Belgian Real‑estate Agents: Data Overview")])).
Proof.
  intros Hp Hfile Hwf Hcol. rewrite main_preamble.
  eapply bind_ok; [reflexivity|]. cbn [files]. rewrite <- Hp.
  eapply bind_ok; [by eapply load_data_run|]. done.
Qed.

End RunOutcomes.

(** ** Printing an integer and reading it back *)

Section IntegerTexts.

Local Abbreviation step := (fun acc c => acc * 10 + (c - 48)).

Lemma numeral_codes_digits d : digits (numeral_codes d).
Proof.
  unfold digits, numeral_codes.
  induction d; cbn [NilEmpty.string_of_uint list_ascii_of_string map];
    constructor; first [by_compute | assumption].
Qed.

Lemma numeral_codes_acc d (p : positive) :
  foldl step (N.pos p) (numeral_codes d) = N.pos (Pos.of_uint_acc d p).
Proof.
  unfold numeral_codes. revert p.
  induction d; intros p;
    cbn [NilEmpty.string_of_uint list_ascii_of_string map foldl Pos.of_uint_acc];
    [done|..];
    rewrite <- IHd; f_equal; cbn [N_of_ascii N_of_digits]; lia.
Qed.

Lemma numeral_codes_value d : decimal_value (numeral_codes d) = Pos.of_uint d.
Proof.
  unfold decimal_value.
  induction d; cbn [Pos.of_uint]; [done|..];
    try (rewrite <- numeral_codes_acc); unfold numeral_codes in *;
    cbn [NilEmpty.string_of_uint list_ascii_of_string map foldl];
    try rewrite <- IHd; f_equal.
Qed.

Lemma numeral_codes_nonempty d : d <> Decimal.Nil -> numeral_codes d ≠ [].
Proof. by destruct d. Qed.

Lemma str_of_int_positive (p : positive) :
  str_of_int (Z.pos p) = numeral_codes (Pos.to_uint p).
Proof.
  unfold str_of_int, numeral_codes. cbn [Z.to_int NilZero.string_of_int].
  pose proof (DecimalPos.Unsigned.to_uint_nonnil p) as Hnn.
  by destruct (Pos.to_uint p).
Qed.

Lemma str_of_int_negative (p : positive) :
  str_of_int (Z.neg p) = 45 :: numeral_codes (Pos.to_uint p).
Proof.
  unfold str_of_int, numeral_codes. cbn [Z.to_int NilZero.string_of_int].
  pose proof (DecimalPos.Unsigned.to_uint_nonnil p) as Hnn.
  by destruct (Pos.to_uint p).
Qed.

Lemma foldl_step_lower (acc : N) (ds : list N) :
  acc * 10 ^ N.of_nat (length ds) <= foldl step acc ds.
Proof.
  revert acc. induction ds as [|c ds IH]; intros acc; cbn [foldl length]; [cbn; lia|].
  specialize (IH (acc * 10 + (c - 48))).
  rewrite Nat2N.inj_succ, N.pow_succ_r'. nia.
Qed.

(** The numeral of a positive number has no leading zero. *)
Lemma to_uint_head (p : positive) d : Pos.to_uint p <> Decimal.D0 d.
Proof.
  pose proof (DecimalPos.Unsigned.to_of (Pos.to_uint p)) as Hnorm.
  rewrite DecimalPos.Unsigned.of_to in Hnorm. cbn [N.to_uint] in Hnorm.
  pose proof (DecimalPos.Unsigned.to_uint_nonzero p) as Hnz.
  assert (Decimal.nzhead (Pos.to_uint p) <> Decimal.Nil) as Hhead.
  { intros E. apply DecimalFacts.unorm_0 in E. congruence. }
  rewrite (DecimalFacts.unorm_nzhead _ Hhead) in Hnorm.
  rewrite Hnorm. apply DecimalFacts.nzhead_nonzero.
Qed.

(** An integer within [exact_bound] is printed with at most 16 digits. *)
Lemma numeral_codes_short (p : positive) :
  (Z.pos p <= exact_bound)%Z ->
  (length (numeral_codes (Pos.to_uint p)) <= max_digits)%nat.
Proof.
  intros Hbound.
  pose proof (numeral_codes_value (Pos.to_uint p)) as Hval.
  rewrite DecimalPos.Unsigned.of_to in Hval.
  pose proof (to_uint_head p) as Hhead.
  pose proof (DecimalPos.Unsigned.to_uint_nonnil p) as Hnn.
  unfold exact_bound in Hbound. change (2 ^ 53)%Z with 9007199254740992%Z in Hbound.
  unfold decimal_value, numeral_codes in *.
  destruct (Pos.to_uint p) as [|d|d|d|d|d|d|d|d|d|d]; [done|by destruct (Hhead d)|..];
    cbn [NilEmpty.string_of_uint list_ascii_of_string map foldl length] in *;
    match type of Hval with foldl _ ?acc ?ds = _ =>
      pose proof (foldl_step_lower acc ds) as Hlow;
      destruct (Nat.le_gt_cases (length ds) 16) as [Hle|Hgt];
      [unfold max_digits; lia|];
      assert (10 ^ 17 <= 10 ^ N.of_nat (length ds)) as Hpow
        by (apply N.pow_le_mono_r; lia);
      change (10 ^ 17) with 100000000000000000 in Hpow;
      assert (1 <= acc) as Hacc by (vm_compute; discriminate);
      nia
    end.
Qed.

Lemma xstrtod_negative_digits ds :
  digits ds -> ds ≠ [] ->
  (length ds <= max_digits)%nat ->
  (Z.of_N (decimal_value ds) <= exact_bound)%Z ->
  xstrtod (45 :: ds) = Some (Fin (inject_Z (- Z.of_N (decimal_value ds))), []).
Proof.
  intros Hds Hne Hlen Hbound. unfold xstrtod. cbn [skip_space].
  change (isspace_ascii 45) with false. unfold read_sign.
  change (45 =? 45) with true. cbn iota.
  rewrite (read_digits_all _ _ _ Hds). cbn [Nat.add]. rewrite Nat.add_0_r.
  destruct ds as [|c ds]; [done|].
  destruct (Nat.eqb_spec (length (c :: ds)) 0) as [E|_]; [done|]. cbn [skip_space].
  change (0 - Z.of_nat 0)%Z with 0%Z. fold (decimal_value (c :: ds)).
  rewrite scale_integer by done. by rewrite within_digits_kept.
Qed.

Lemma clean_digits ds : digits ds -> clean ds = ds.
Proof.
  intros Hds. rewrite clean_filter, filter_digits by done.
  apply strip_id. eapply Forall_impl; [exact Hds|]. apply isdigit_not_isspace.
Qed.

Lemma clean_negative_digits ds : digits ds -> clean (45 :: ds) = 45 :: ds.
Proof.
  intros Hds. rewrite clean_filter, filter_cons_True.
  - rewrite filter_digits by done. apply strip_id. constructor; [by_compute|].
    eapply Forall_impl; [exact Hds|]. apply isdigit_not_isspace.
  - by_compute_false.
Qed.

Lemma floatify_str_of_int (z : Z) :
  (Z.abs z <= exact_bound)%Z ->
  clean (str_of_int z) = str_of_int z
  /\ floatify (str_of_int z) = Some (Fin (inject_Z z)).
Proof.
  intros Hbound. destruct z as [|p|p].
  - split; by_compute.
  - rewrite str_of_int_positive.
    pose proof (numeral_codes_digits (Pos.to_uint p)) as Hds.
    pose proof (numeral_codes_nonempty _ (DecimalPos.Unsigned.to_uint_nonnil p)) as Hne.
    pose proof (numeral_codes_value (Pos.to_uint p)) as Hval.
    rewrite DecimalPos.Unsigned.of_to in Hval.
    split; [by apply clean_digits|].
    rewrite floatify_digits; [by rewrite Hval | done | done | |].
    + apply numeral_codes_short. cbn in *. lia.
    + rewrite Hval. cbn in *. lia.
  - rewrite str_of_int_negative.
    pose proof (numeral_codes_digits (Pos.to_uint p)) as Hds.
    pose proof (numeral_codes_nonempty _ (DecimalPos.Unsigned.to_uint_nonnil p)) as Hne.
    pose proof (numeral_codes_value (Pos.to_uint p)) as Hval.
    rewrite DecimalPos.Unsigned.of_to in Hval.
    split; [by apply clean_negative_digits|].
    unfold floatify.
    rewrite xstrtod_negative_digits; [by rewrite Hval | done | done | |].
    + apply numeral_codes_short. cbn in *. lia.
    + rewrite Hval. cbn in *. lia.
Qed.

End IntegerTexts.

(** * Further properties of the loader *)

Section LoaderProperties.

Context `{FloatRepr}.

(** X1. A profit text made only of digits, euro signs, commas and
    spaces, with at least one digit and at most 15, is not missing: its
    Profit is the number its digits write, read left to right. *)
Theorem load_data_parses_currency_text
    (w : world) (p : list (list N)) (d : DataFrame) (col : list cell)
    (i : nat) (t : list N) :
  files w !! p = Some (File (Some d)) ->
  wf d ->
  column d profit_label = Some col ->
  col !! i = Some (VStr t) ->
  currency_text t ->
  (exists c, c ∈ t /\ isdigit c = true) ->
  (length (filter (fun c => isdigit c = true) t) <= 15)%nat ->
  exists w' d',
    load_data p w = (Ok (length (heap w)), w')
    /\ heap w' !! length (heap w) = Some d'
    /\ clean t = filter (fun c => isdigit c = true) t
    /\ at_ d' i (py "Profit")
       = Some (VFloat (Fin (inject_Z (Z.of_N
           (decimal_value (filter (fun c => isdigit c = true) t)))))).
Proof.
  intros Hp Hwf Hcol Hi Ht (c & Hc & Hdigit) Hlen. eexists _, (loaded d col).
  split; [by apply load_data_run|]. split; [apply lookup_new|].
  split; [by apply clean_currency_text|].
  rewrite (loaded_profit d col i _ Hi). cbn [py_str].
  rewrite clean_currency_text by done. unfold coerced.
  assert (digits (filter (fun c => isdigit c = true) t)) as Hds
    by (apply Forall_forall; intros x Hx%list_elem_of_filter; tauto).
  destruct (short_numeral _ Hds Hlen) as [Hmax Hbound].
  rewrite floatify_digits; [done | done | | done | done].
  - intros Hnil. assert (c ∈ filter (fun c => isdigit c = true) t) as Hin
      by by apply list_elem_of_filter.
    rewrite Hnil in Hin. by apply elem_of_nil in Hin.
Qed.

(** X2. A profit cell whose text holds a character that is neither
    white space, nor one of the three deleted marks, nor a character a
    number can be written with (digits, sign, point, exponent mark, the
    letters of "infinity") gets the missing value as its Profit. *)
Theorem load_data_foreign_character_is_missing
    (w : world) (p : list (list N)) (d : DataFrame) (col : list cell)
    (i : nat) (x : cell) (c : N) :
  files w !! p = Some (File (Some d)) ->
  wf d ->
  column d profit_label = Some col ->
  col !! i = Some x ->
  c ∈ py_str x ->
  c ∉ currency_marks ->
  isspace c = false ->
  numeric_char c = false ->
  exists w' d',
    load_data p w = (Ok (length (heap w)), w')
    /\ heap w' !! length (heap w) = Some d'
    /\ floatify (clean (py_str x)) = None
    /\ at_ d' i (py "Profit") = Some (VFloat NaN).
Proof.
  intros Hp Hwf Hcol Hi Hc Hmark Hspace Hnum. eexists _, (loaded d col).
  split; [by apply load_data_run|]. split; [apply lookup_new|].
  assert (floatify (clean (py_str x)) = None) as Hfail.
  { apply (floatify_foreign_char _ c); [by apply elem_of_clean | done]. }
  split; [done|]. rewrite (loaded_profit d col i _ Hi).
  unfold coerced. by rewrite Hfail.
Qed.

(** X3. The loader returns exactly when the path holds a table that has
    the profit text column.  Whatever the outcome, it touches no file,
    adds nothing to the page and changes no object that was there. *)
Theorem load_data_succeeds_iff (w : world) (p : list (list N)) :
  (forall d, files w !! p = Some (File (Some d)) -> wf d) ->
  ((exists r w', load_data p w = (Ok r, w'))
   <-> (exists d, files w !! p = Some (File (Some d))
                  /\ is_Some (column d profit_label)))
  /\ extends w (load_data p w).2
  /\ page (load_data p w).2 = page w.
Proof.
  intros Hwf. split; [|split; [apply load_data_extends | apply load_data_page]].
  pose proof (load_data_cases w p) as Hcases. split.
  - intros (r & w' & Hrun). rewrite Hrun in Hcases.
    destruct (files w !! p) as [[|[d|]]|]; try done.
    exists d. split; [done|].
    destruct (column d profit_label) as [col|]; [by eexists | done].
  - intros (d & Hp & col & Hcol). rewrite Hp, Hcol in Hcases.
    rewrite bool_decide_true in Hcases; [by eauto|].
    apply (column_length d profit_label); [by apply Hwf | done].
Qed.

(** X4. The derived column is put last, unless the file already has a
    column labelled Profit: that one is overwritten where it stands and
    the labels stay as they were. *)
Theorem load_data_profit_column_position
    (w : world) (p : list (list N)) (d : DataFrame) (col : list cell) :
  files w !! p = Some (File (Some d)) ->
  wf d ->
  column d profit_label = Some col ->
  exists w' d',
    load_data p w = (Ok (length (heap w)), w')
    /\ heap w' !! length (heap w) = Some d'
    /\ (py "Profit" ∉ labels d -> labels d' = labels d ++ [py "Profit"])
    /\ (py "Profit" ∈ labels d -> labels d' = labels d).
Proof.
  intros Hp Hwf Hcol. eexists _, (loaded d col).
  split; [by apply load_data_run|]. split; [apply lookup_new|].
  unfold loaded, labels, set_column. cbn [columns]. rewrite assign_labels.
  split.
  - intros Hnew. by rewrite decide_False.
  - intros Hold. by rewrite decide_True.
Qed.

End LoaderProperties.

(** X5. Cleaning is a normal form: cleaning a cleaned text changes
    nothing; a cleaned text neither begins nor ends with white space,
    holds none of the three marks, and every character of it comes from
    the text. *)
Theorem clean_is_a_normal_form (text : list N) :
  clean (clean text) = clean text
  /\ starts_clean (clean text)
  /\ starts_clean (reverse (clean text))
  /\ (forall c, c ∈ clean text -> c ∈ text /\ c ∉ currency_marks).
Proof.
  split_and!.
  - rewrite (clean_filter (clean text)).
    rewrite filter_all by (apply Forall_forall; intros c; apply clean_no_marks).
    rewrite clean_filter. apply strip_strip.
  - rewrite clean_filter. apply strip_starts_clean.
  - rewrite clean_filter. apply strip_ends_clean.
  - intros c Hc. split; [|by apply (clean_no_marks text)].
    rewrite clean_filter in Hc. apply elem_of_strip, list_elem_of_filter in Hc. tauto.
Qed.

(** * Further properties of the enricher *)

Section EnricherProperties.

Implicit Types (w : world) (d : DataFrame) (locs : list cell).

(** X6. On a well-formed frame the enricher returns exactly when the
    frame has a Locality column; without one it raises [KeyError] for
    that label before copying anything, so the world is as it was. *)
Theorem enrich_succeeds_iff w (r : nat) d :
  heap w !! r = Some d ->
  wf d ->
  ((exists r' w', enrich_with_coords r w = (Ok r', w'))
   <-> is_Some (column d (py "Locality")))
  /\ (column d (py "Locality") = None ->
      enrich_with_coords r w = (Raise (KeyError (py "Locality")), w)).
Proof.
  intros Hr Hwf. pose proof (enrich_cases w r) as Hcases. rewrite Hr in Hcases.
  split; [split|].
  - intros (r' & w' & Hrun). rewrite Hrun in Hcases.
    destruct (column d (py "Locality")) as [locs|]; [by eexists | done].
  - intros [locs Hlocs]. rewrite Hlocs in Hcases.
    rewrite bool_decide_true in Hcases; [by eauto|].
    by apply (column_length d (py "Locality")).
  - intros Hnone. by rewrite Hnone in Hcases.
Qed.

(** X7. Where the coordinates go: on a frame with neither column they
    are added last, Latitude before Longitude; on a frame that has both
    they are overwritten where they stand and the labels are
    unchanged. *)
Theorem enrich_column_layout w (r : nat) d locs :
  heap w !! r = Some d ->
  wf d ->
  column d (py "Locality") = Some locs ->
  exists w' d',
    enrich_with_coords r w = (Ok (length (heap w)), w')
    /\ heap w' !! length (heap w) = Some d'
    /\ (py "Latitude" ∉ labels d -> py "Longitude" ∉ labels d ->
        labels d' = labels d ++ [py "Latitude"; py "Longitude"])
    /\ (py "Latitude" ∈ labels d -> py "Longitude" ∈ labels d ->
        labels d' = labels d).
Proof.
  intros Hr Hwf Hlocs. eexists _, (enriched d locs).
  split; [by apply enrich_run|]. split; [apply lookup_new|].
  rewrite enriched_labels. cbn zeta. split.
  - intros Hlat Hlon. rewrite (decide_False (P := py "Latitude" ∈ labels d)) by done.
    rewrite decide_False; [by rewrite <- app_assoc|].
    rewrite elem_of_app, list_elem_of_singleton. intros [?|E]; [done|].
    revert E. label_neq.
  - intros Hlat Hlon. rewrite (decide_True (P := py "Latitude" ∈ labels d)) by done.
    by rewrite decide_True.
Qed.

(** X8. Enriching an enriched frame gives a third object equal to the
    second: the coordinates are recomputed from the same localities and
    overwrite themselves. *)
Theorem enrich_twice_is_enrich_once w (r : nat) d locs :
  heap w !! r = Some d ->
  wf d ->
  column d (py "Locality") = Some locs ->
  exists w1 w2 d',
    enrich_with_coords r w = (Ok (length (heap w)), w1)
    /\ enrich_with_coords (length (heap w)) w1 = (Ok (S (length (heap w))), w2)
    /\ heap w2 !! r = Some d
    /\ heap w2 !! length (heap w) = Some d'
    /\ heap w2 !! S (length (heap w)) = Some d'.
Proof.
  intros Hr Hwf Hlocs.
  eexists _, _, (enriched d locs). split; [by apply enrich_run|].
  pose proof (enrich_run (mkWorld (files w) (heap w ++ [enriched d locs]) (page w))
                (length (heap w)) (enriched d locs) locs) as Hsecond.
  cbn [heap files page] in Hsecond. rewrite length_app, Nat.add_1_r in Hsecond.
  split.
  - apply Hsecond; [apply lookup_new | by apply enriched_wf | by apply enriched_locality].
  - cbn [heap]. rewrite enriched_enriched. split_and!.
    + rewrite <- app_assoc. by apply lookup_app_l_Some.
    + rewrite <- app_assoc. rewrite lookup_app_r, Nat.sub_diag by lia. done.
    + rewrite lookup_app_r by (rewrite length_app; cbn; lia).
      rewrite length_app, Nat.add_1_r, Nat.sub_diag. done.
Qed.

End EnricherProperties.

(** * Further properties of the views and of the run *)

Section ViewProperties.

Context `{FloatRepr}.

Implicit Types (w : world) (d : DataFrame).

(** X9. On a well-formed frame with the Latitude, Longitude, Name and
    Address columns, whose coordinates are finite floats as the enricher
    writes them and whose names and addresses are not integers (text,
    or a missing value), the map view draws one map centred on Brussels
    at zoom 8 with two layers per row, in row order: the row's marker at
    its coordinates, with the name and the address of the row in its
    popup; then the connector from the centre to the same point.  It
    changes no frame and no file. *)
Theorem build_map_draws_every_row w (r : nat) d (lats lons names addrs : list cell) :
  heap w !! r = Some d ->
  wf d ->
  column d (py "Latitude") = Some lats ->
  column d (py "Longitude") = Some lons ->
  column d (py "Name") = Some names ->
  column d (py "Address") = Some addrs ->
  Forall finite_float lats ->
  Forall finite_float lons ->
  Forall (fun c => is_int c = false) names ->
  Forall (fun c => is_int c = false) addrs ->
  exists m,
    build_map r w
    = (Ok tt,
       mkWorld (files w) (heap w)
         (page w ++ [folium_static (mkMap (Fin 50.8466, Fin 4.3528) 8 m) 700 500]))
    /\ length m = (2 * nrows d)%nat
    /\ (forall i (y x : Q) name address,
          lats !! i = Some (VFloat (Fin y)) -> lons !! i = Some (VFloat (Fin x)) ->
          names !! i = Some name -> addrs !! i = Some address ->
          m !! (2 * i)%nat
          = Some (Marker (Fin y, Fin x)
                    (py "<b>" ++ py_str name ++ py "</b><br>" ++ py_str address))
          /\ m !! (2 * i + 1)%nat
             = Some (PolyLine [(Fin 50.8466, Fin 4.3528); (Fin y, Fin x)]
                       (py "blue") 1)).
Proof.
  intros Hr Hwf Hlat Hlon Hname Haddr Hlats Hlons Hnames Haddrs.
  exists (flat_map (row_layers d) (seq 0 (nrows d))).
  split; [by apply (build_map_run w r d lats lons names addrs)|].
  split; [by apply (map_layers_length d lats lons names addrs)|].
  intros i y x name address Hi1 Hi2 Hi3 Hi4.
  rewrite <- (row_cell_not_int d name)
    by exact (proj1 (Forall_lookup _ _) Hnames i name Hi3).
  rewrite <- (row_cell_not_int d address)
    by exact (proj1 (Forall_lookup _ _) Haddrs i address Hi4).
  assert (i < nrows d)%nat as Hi.
  { rewrite <- (column_length d _ _ Hwf Hlat). by eapply lookup_lt_Some. }
  destruct (map_row_rows d lats lons names addrs Hwf Hlat Hlon Hname Haddr
              Hlats Hlons i Hi)
    as (y' & x' & name' & address' & ? & ? & ? & ? & Hrow).
  simplify_eq.
  apply (flat_map_pairs_lookup (row_layers d) (seq 0 (nrows d)) i i).
  - intros j Hj%elem_of_seq.
    apply (row_layers_pair d lats lons names addrs); [done..|lia].
  - by apply lookup_seq.
  - unfold row_layers. by rewrite Hrow.
Qed.

(** X10. The map view reads a row's cells only when there is a row: on
    a frame without rows it draws the empty map whatever columns the
    frame has; on a frame with a row but no Name column (no Address
    column) it raises [KeyError] for that label and draws nothing. *)
Theorem build_map_needs_columns_only_for_rows w (r : nat) d (lats lons : list cell) :
  heap w !! r = Some d ->
  wf d ->
  (nrows d = 0%nat ->
   build_map r w
   = (Ok tt,
      mkWorld (files w) (heap w)
        (page w ++ [folium_static (mkMap (Fin 50.8466, Fin 4.3528) 8 []) 700 500])))
  /\ ((0 < nrows d)%nat ->
      column d (py "Latitude") = Some lats ->
      column d (py "Longitude") = Some lons ->
      (column d (py "Name") = None ->
       build_map r w = (Raise (KeyError (py "Name")), w))
      /\ (is_Some (column d (py "Name")) ->
          column d (py "Address") = None ->
          build_map r w = (Raise (KeyError (py "Address")), w))).
Proof.
  intros Hr Hwf. split; [by apply build_map_empty|].
  intros Hrows Hlat Hlon. split.
  - by apply (build_map_missing_name w r d lats lons).
  - intros [names Hname]. by apply (build_map_missing_address w r d lats lons names).
Qed.

(** X11. Whatever the files hold and however the run ends, [main]
    writes no file, changes no object that existed, and only adds to the
    end of the page. *)
Theorem main_only_adds (script : list (list N)) w :
  files (main script w).2 = files w
  /\ heap w `prefix_of` heap (main script w).2
  /\ page w `prefix_of` page (main script w).2.
Proof.
  change (extends w (main script w).2).
  unfold main.
  apply extends_bind; [apply emit_extends|]. intros _ w1.
  apply extends_bind; [apply emit_extends|]. intros _ w2.
  apply extends_bind; [apply extends_refl|]. intros found w3.
  apply extends_bind; [apply load_data_extends|]. intros df w4.
  apply extends_bind; [apply enrich_extends|]. intros df' w5.
  apply extends_bind; [apply emit_extends|]. intros _ w6.
  apply extends_bind; [apply drop_extends|]. intros shown w7.
  apply extends_bind; [apply draws_only_extends, draws_only_deref|]. intros table w8.
  apply extends_bind; [apply emit_extends|]. intros _ w9.
  apply extends_bind; [apply emit_extends|]. intros _ w10.
  apply extends_bind; [apply draws_only_extends, build_bar_chart_draws_only|].
  intros _ w11.
  apply extends_bind; [apply emit_extends|]. intros _ w12.
  apply draws_only_extends, build_map_draws_only.
Qed.

(** X12. With the four columns in the resolved file the run returns and
    the page gets, in this order: the page configuration, the title, the
    "Data Table" header and the table view, the profit header and the
    bar chart of the enriched frame (Name against Profit), the map
    header and the map with two layers per row.  Three objects are
    created: the loaded frame, the enriched frame and the frame shown;
    the chart and the map get the enriched one. *)
Theorem main_renders_views_in_order
    w (script p : list (list N)) d (col locs names addrs : list cell) :
  p = (if bool_decide (is_Some (files w !! local_csv script))
       then local_csv script else parent_csv script) ->
  files w !! p = Some (File (Some d)) ->
  wf d ->
  column d profit_label = Some col ->
  column d (py "Locality") = Some locs ->
  column d (py "Name") = Some names ->
  column d (py "Address") = Some addrs ->
  exists w' m,
    main script w = (Ok tt, w')
    /\ files w' = files w
    /\ heap w'
       = heap w ++ [loaded d col; enriched (loaded d col) locs; shown d col locs]
    /\ page w'
       = page w
         ++ [set_page_config (py "Belgian Real‑estate Agents") (py "wide");
             title (py "Belgian Real‑estate Agents: Data Overview");
             header (py "Data Table");
             dataframe (shown d col locs);
             header (py "Latest Profit After Tax (Euro)");
             plotly_chart (bar_figure (enriched (loaded d col) locs)) true;
             header (py "Map of Agents with Connectors");
             folium_static (mkMap (Fin 50.8466, Fin 4.3528) 8 m) 700 500]
    /\ length m = (2 * nrows d)%nat.
Proof.
  intros Hp Hfile Hwf Hcol Hlocs Hname Haddr.
  rewrite (main_run w script p d col locs) by done.
  set (full := enriched (loaded d col) locs).
  assert (wf full) as Hfull.
  { apply enriched_wf; [by apply loaded_wf|].
    rewrite loaded_other; [done | label_neq]. }
  assert (heap (after_table w d col locs) !! S (length (heap w)) = Some full) as Hlook.
  { unfold after_table. cbn [heap]. rewrite lookup_app_r by lia.
    by replace (S (length (heap w)) - length (heap w))%nat with 1%nat by lia. }
  assert (column full (py "Name") = Some names) as Hname'.
  { unfold full. rewrite enriched_other, loaded_other; [done | label_neq..]. }
  assert (column full (py "Address") = Some addrs) as Haddr'.
  { unfold full. rewrite enriched_other, loaded_other; [done | label_neq..]. }
  assert (is_Some (column full (py "Profit"))) as Hprofit.
  { unfold full. rewrite enriched_other by label_neq. unfold loaded.
    rewrite column_set_eq. by eexists. }
  destruct (enriched_coordinates (loaded d col) locs)
    as (lats & lons & Hlat & Hlon & Hlats & Hlons).
  fold full in Hlat, Hlon.
  exists (mkWorld (files w)
            (heap w ++ [loaded d col; full; shown d col locs])
            (page (after_table w d col locs)
             ++ [header (py "Latest Profit After Tax (Euro)");
                 plotly_chart (bar_figure full) true;
                 header (py "Map of Agents with Connectors");
                 folium_static
                   (mkMap center 8 (flat_map (row_layers full) (seq 0 (nrows full))))
                   700 500])),
         (flat_map (row_layers full) (seq 0 (nrows full))).
  split.
  - unfold charts. eapply bind_ok; [reflexivity|].
    eapply bind_ok; [apply (build_bar_chart_run _ _ full); [exact Hlook|by eexists|done]|].
    eapply bind_ok; [reflexivity|].
    etrans; [apply (build_map_run _ _ full lats lons names addrs); [exact Hlook|done..]|].
    unfold after_table. cbn [heap files page]. by rewrite <- !app_assoc.
  - split; [done|]. split; [done|]. split.
    + unfold after_table. cbn [page]. by rewrite <- !app_assoc.
    + by rewrite (map_layers_length full lats lons names addrs).
Qed.

(** X13. A resolved file that cannot be used stops the run before any
    header or view, with only the page configuration and the title on
    the page: a file that cannot be read as a table raises the reader's
    error, [ReadError] here (a local candidate is not given up for the
    parent one); a table without the profit text column or without the
    Locality column raises [KeyError] for that label. *)
Theorem main_stops_before_views_on_bad_table w (script p : list (list N)) :
  p = (if bool_decide (is_Some (files w !! local_csv script))
       then local_csv script else parent_csv script) ->
  (files w !! p = Some (File None) ->
   main script w
   = (Raise (ReadError p),
      mkWorld (files w) (heap w)
        (page w ++ [set_page_config (py "Belgian Real‑estate Agents") (py "wide");
                    title (py "Belgian Real‑estate Agents: Data Overview")])))
  /\ (forall d,
        files w !! p = Some (File (Some d)) ->
        column d profit_label = None ->
        main script w
        = (Raise (KeyError profit_label),
           mkWorld (files w) (heap w ++ [d])
             (page w ++ [set_page_config (py "Belgian Real‑estate Agents") (py "wide");
                         title (py "Belgian Real‑estate Agents: Data Overview")])))
  /\ (forall d col,
        files w !! p = Some (File (Some d)) ->
        wf d ->
        column d profit_label = Some col ->
        column d (py "Locality") = None ->
        main script w
        = (Raise (KeyError (py "Locality")),
           mkWorld (files w) (heap w ++ [loaded d col])
             (page w ++ [set_page_config (py "Belgian Real‑estate Agents") (py "wide");
                         title (py "Belgian Real‑estate Agents: Data Overview")]))).
Proof.
  intros Hp. split_and!.
  - intros Hfile. rewrite main_preamble.
    eapply bind_ok; [reflexivity|]. cbn [files]. rewrite <- Hp.
    apply bind_raise. unfold load_data. apply bind_raise.
    unfold read_csv. cbn [files]. by rewrite Hfile.
  - intros d Hfile Hcol. rewrite main_preamble.
    eapply bind_ok; [reflexivity|]. cbn [files]. rewrite <- Hp.
    apply bind_raise.
    etrans; [apply (load_data_no_profit_text _ p d); [exact Hfile | exact Hcol]|].
    done.
  - intros d col Hfile Hwf Hcol Hlocs.
    rewrite (main_to_enricher w script p d col) by done.
    apply bind_raise.
    pose proof (enrich_cases
                  (mkWorld (files w) (heap w ++ [loaded d col])
                     (page w ++ [set_page_config (py "Belgian Real‑estate Agents")
                                   (py "wide");
                                 title (py "Belgian Real‑estate Agents: Data Overview")]))
                  (length (heap w))) as Hcases.
    cbn [heap] in Hcases. rewrite lookup_new in Hcases.
    rewrite loaded_other in Hcases by label_neq. by rewrite Hlocs in Hcases.
Qed.

(** X14. Nothing isolates a view from the next: with a row in the
    table, a Name column but no Address column, the table view and the
    bar chart are drawn, the map header is put on the page, and the run
    then stops on [KeyError] for Address without a map. *)
Theorem main_without_address_stops_at_map
    w (script p : list (list N)) d (col locs names : list cell) :
  p = (if bool_decide (is_Some (files w !! local_csv script))
       then local_csv script else parent_csv script) ->
  files w !! p = Some (File (Some d)) ->
  wf d ->
  (0 < nrows d)%nat ->
  column d profit_label = Some col ->
  column d (py "Locality") = Some locs ->
  column d (py "Name") = Some names ->
  column d (py "Address") = None ->
  exists w',
    main script w = (Raise (KeyError (py "Address")), w')
    /\ page w'
       = page w
         ++ [set_page_config (py "Belgian Real‑estate Agents") (py "wide");
             title (py "Belgian Real‑estate Agents: Data Overview");
             header (py "Data Table");
             dataframe (shown d col locs);
             header (py "Latest Profit After Tax (Euro)");
             plotly_chart (bar_figure (enriched (loaded d col) locs)) true;
             header (py "Map of Agents with Connectors")].
Proof.
  intros Hp Hfile Hwf Hrows Hcol Hlocs Hname Haddr.
  rewrite (main_run w script p d col locs) by done.
  set (full := enriched (loaded d col) locs).
  assert (wf full) as Hfull.
  { apply enriched_wf; [by apply loaded_wf|].
    rewrite loaded_other; [done | label_neq]. }
  assert (heap (after_table w d col locs) !! S (length (heap w)) = Some full) as Hlook.
  { unfold after_table. cbn [heap]. rewrite lookup_app_r by lia.
    by replace (S (length (heap w)) - length (heap w))%nat with 1%nat by lia. }
  assert (column full (py "Name") = Some names) as Hname'.
  { unfold full. rewrite enriched_other, loaded_other; [done | label_neq..]. }
  assert (column full (py "Address") = None) as Haddr'.
  { unfold full. rewrite enriched_other, loaded_other; [done | label_neq..]. }
  assert (is_Some (column full (py "Profit"))) as Hprofit.
  { unfold full. rewrite enriched_other by label_neq. unfold loaded.
    rewrite column_set_eq. by eexists. }
  destruct (enriched_coordinates (loaded d col) locs)
    as (lats & lons & Hlat & Hlon & Hlats & Hlons).
  fold full in Hlat, Hlon.
  eexists. split.
  - unfold charts. eapply bind_ok; [reflexivity|].
    eapply bind_ok; [apply (build_bar_chart_run _ _ full); [exact Hlook|by eexists|done]|].
    eapply bind_ok; [reflexivity|].
    apply (build_map_missing_address _ _ full lats lons names); [exact Hlook|done..].
  - unfold after_table. cbn [emit heap files page]. by rewrite <- !app_assoc.
Qed.

End ViewProperties.

Section IntegerProfit.

Context `{FloatRepr}.

(** X15. A profit cell that holds an integer of magnitude at most 2^53,
    as in a column read as numbers: its text is left as it is by the
    cleaning and parses back to the same integer, which becomes the
    Profit. *)
Theorem load_data_keeps_integer_profit
    (w : world) (p : list (list N)) (d : DataFrame) (col : list cell)
    (i : nat) (z : Z) :
  files w !! p = Some (File (Some d)) ->
  wf d ->
  column d profit_label = Some col ->
  col !! i = Some (VInt z) ->
  (Z.abs z <= 2 ^ 53)%Z ->
  exists w' d',
    load_data p w = (Ok (length (heap w)), w')
    /\ heap w' !! length (heap w) = Some d'
    /\ clean (py_str (VInt z)) = py_str (VInt z)
    /\ at_ d' i (py "Profit") = Some (VFloat (Fin (inject_Z z))).
Proof.
  intros Hp Hwf Hcol Hi Hbound. eexists _, (loaded d col).
  split; [by apply load_data_run|]. split; [apply lookup_new|].
  destruct (floatify_str_of_int z Hbound) as [Hclean Hparse].
  split; [exact Hclean|].
  rewrite (loaded_profit d col i _ Hi). cbn [py_str].
  rewrite Hclean. unfold coerced. by rewrite Hparse.
Qed.

End IntegerProfit.

Section MapCoordinates.

Context `{FloatRepr}.

(** X16. The map is all or nothing: on a well-formed frame with the four
    columns and float coordinates, a single row whose Latitude or
    Longitude is the missing value makes the map view raise
    [ValueError], and no map is put on the page, whatever the other
    rows hold. *)
Theorem build_map_stops_on_missing_coordinate
    (w : world) (r : nat) (d : DataFrame) (lats lons names addrs : list cell)
    (i : nat) :
  heap w !! r = Some d ->
  wf d ->
  column d (py "Latitude") = Some lats ->
  column d (py "Longitude") = Some lons ->
  column d (py "Name") = Some names ->
  column d (py "Address") = Some addrs ->
  Forall float_cell lats ->
  Forall float_cell lons ->
  lats !! i = Some (VFloat NaN) \/ lons !! i = Some (VFloat NaN) ->
  build_map r w = (Raise ValueError, w).
Proof.
  intros Hr Hwf Hlat Hlon Hname Haddr Hlats Hlons Hmissing.
  assert (i < nrows d)%nat as Hi.
  { destruct Hmissing as [Hm|Hm]; apply lookup_lt_Some in Hm.
    - by rewrite <- (column_length d _ _ Hwf Hlat).
    - by rewrite <- (column_length d _ _ Hwf Hlon). }
  unfold build_map. eapply bind_ok; [by apply deref_run|].
  apply bind_raise. unfold lift. rewrite map_rows_value_error; [done| |].
  - intros j Hj%elem_of_seq.
    apply (map_row_float_columns d lats lons names addrs); [done..|lia].
  - exists i. split; [apply elem_of_seq; lia|].
    by apply (map_row_float_columns d lats lons names addrs).
Qed.

(** On a frame of numbers only, the rows of [iterrows] are floats: the
    popup shows the integer name and address as floats. *)
Example map_row_numeric_frame :
  map_row MoreSamples.numeric 0
  = Ok [Marker (Fin 50.7219, Fin 4.3997)
          (py "<b>" ++ float_repr 1 ++ py "</b><br>" ++ float_repr 2);
        PolyLine [(Fin 50.8466, Fin 4.3528); (Fin 50.7219, Fin 4.3997)] (py "blue") 1].
Proof. reflexivity. Qed.

End MapCoordinates.

(** * The further properties on the sample data *)

Ltac absent := let E := fresh in intros E; apply (bool_decide_pack _) in E;
  vm_compute in E; exact E.

Lemma load_data_parses_currency_text_witness :
  exists w' d',
    @load_data Sample.repr Sample.beside Sample.world_local = (Ok 0%nat, w')
    /\ heap w' !! 0%nat = Some d'
    /\ at_ d' 0 (py "Profit") = Some (VFloat (Fin 1234)).
Proof.
  destruct (@load_data_parses_currency_text Sample.repr Sample.world_local
              Sample.beside Sample.table Sample.profit_texts 0 (py "€1,234 "))
    as (w' & d' & Hrun & Hheap & _ & Hprofit).
  - vm_compute. reflexivity.
  - holds_by_decision.
  - vm_compute. reflexivity.
  - reflexivity.
  - holds_by_decision.
  - exists 49. split; [holds_by_decision | reflexivity].
  - vm_compute. lia.
  - exists w', d'. split; [exact Hrun|]. split; [exact Hheap|].
    rewrite Hprofit. vm_compute. reflexivity.
Defined.

Lemma load_data_foreign_character_is_missing_witness :
  exists w' d',
    @load_data Sample.repr Sample.beside Sample.world_local = (Ok 0%nat, w')
    /\ heap w' !! 0%nat = Some d'
    /\ at_ d' 2 (py "Profit") = Some (VFloat NaN).
Proof.
  destruct (@load_data_foreign_character_is_missing Sample.repr Sample.world_local
              Sample.beside Sample.table Sample.profit_texts 2 (VStr (py "N/A")) 47)
    as (w' & d' & Hrun & Hheap & _ & Hprofit).
  - vm_compute. reflexivity.
  - holds_by_decision.
  - vm_compute. reflexivity.
  - reflexivity.
  - holds_by_decision.
  - absent.
  - reflexivity.
  - vm_compute. reflexivity.
  - exists w', d'. split; [exact Hrun|]. split; [exact Hheap|]. exact Hprofit.
Defined.

Lemma load_data_succeeds_iff_witness :
  (exists r w', @load_data Sample.repr Sample.beside Sample.world_local = (Ok r, w'))
  /\ ~ (exists r w', @load_data Sample.repr Sample.beside
                       (MoreSamples.world_of (File (Some MoreSamples.names_only)))
                     = (Ok r, w')).
Proof.
  split.
  - destruct (@load_data_succeeds_iff Sample.repr Sample.world_local Sample.beside)
      as [[_ Hback] _].
    + intros d Hd. vm_compute in Hd. injection Hd as <-. holds_by_decision.
    + apply Hback. exists Sample.table. split; [vm_compute; reflexivity|].
      eexists. vm_compute. reflexivity.
  - destruct (@load_data_succeeds_iff Sample.repr
                (MoreSamples.world_of (File (Some MoreSamples.names_only)))
                Sample.beside) as [[Hforth _] _].
    + intros d Hd. vm_compute in Hd. injection Hd as <-. holds_by_decision.
    + intros Hok. destruct (Hforth Hok) as (d & Hd & Hcol).
      vm_compute in Hd. injection Hd as <-. vm_compute in Hcol.
      destruct Hcol as [col Hcol]. discriminate Hcol.
Defined.

Lemma load_data_profit_column_position_witness :
  exists w' d',
    @load_data Sample.repr Sample.beside Sample.world_local = (Ok 0%nat, w')
    /\ heap w' !! 0%nat = Some d'
    /\ labels d' = labels Sample.table ++ [py "Profit"].
Proof.
  destruct (@load_data_profit_column_position Sample.repr Sample.world_local
              Sample.beside Sample.table Sample.profit_texts)
    as (w' & d' & Hrun & Hheap & Hnew & _).
  - vm_compute. reflexivity.
  - holds_by_decision.
  - vm_compute. reflexivity.
  - exists w', d'. split; [exact Hrun|]. split; [exact Hheap|].
    apply Hnew. absent.
Defined.

Lemma load_data_keeps_integer_profit_witness :
  exists w' d',
    @load_data Sample.repr Sample.beside
      (MoreSamples.world_of (File (Some MoreSamples.plain))) = (Ok 0%nat, w')
    /\ heap w' !! 0%nat = Some d'
    /\ at_ d' 1 (py "Profit") = Some (VFloat (Fin (-35))).
Proof.
  destruct (@load_data_keeps_integer_profit Sample.repr
              (MoreSamples.world_of (File (Some MoreSamples.plain)))
              Sample.beside MoreSamples.plain [VInt 1200; VInt (-35)] 1 (-35)%Z)
    as (w' & d' & Hrun & Hheap & _ & Hprofit).
  - vm_compute. reflexivity.
  - holds_by_decision.
  - vm_compute. reflexivity.
  - reflexivity.
  - vm_compute. discriminate.
  - exists w', d'. split; [exact Hrun|]. split; [exact Hheap|]. exact Hprofit.
Defined.

Lemma enrich_succeeds_iff_witness :
  (exists r' w', enrich_with_coords 0 Sample.world_loaded = (Ok r', w'))
  /\ enrich_with_coords 0 MoreSamples.world_nameless
     = (Raise (KeyError (py "Locality")), MoreSamples.world_nameless).
Proof.
  split.
  - destruct (enrich_succeeds_iff Sample.world_loaded 0 Sample.table) as [[_ Hback] _].
    + reflexivity.
    + holds_by_decision.
    + apply Hback. eexists. vm_compute. reflexivity.
  - destruct (enrich_succeeds_iff MoreSamples.world_nameless 0 MoreSamples.nameless)
      as [_ Hraise].
    + reflexivity.
    + holds_by_decision.
    + apply Hraise. vm_compute. reflexivity.
Defined.

Lemma enrich_column_layout_witness :
  exists w' d',
    enrich_with_coords 0 Sample.world_loaded = (Ok 1%nat, w')
    /\ heap w' !! 1%nat = Some d'
    /\ labels d' = labels Sample.table ++ [py "Latitude"; py "Longitude"].
Proof.
  destruct (enrich_column_layout Sample.world_loaded 0 Sample.table Sample.localities)
    as (w' & d' & Hrun & Hheap & Hnew & _).
  - reflexivity.
  - holds_by_decision.
  - vm_compute. reflexivity.
  - exists w', d'. split; [exact Hrun|]. split; [exact Hheap|].
    apply Hnew; absent.
Defined.

Lemma enrich_twice_is_enrich_once_witness :
  exists w1 w2 d',
    enrich_with_coords 0 Sample.world_loaded = (Ok 1%nat, w1)
    /\ enrich_with_coords 1 w1 = (Ok 2%nat, w2)
    /\ heap w2 !! 0%nat = Some Sample.table
    /\ heap w2 !! 1%nat = Some d'
    /\ heap w2 !! 2%nat = Some d'.
Proof.
  apply (enrich_twice_is_enrich_once Sample.world_loaded 0 Sample.table
           Sample.localities).
  - reflexivity.
  - holds_by_decision.
  - vm_compute. reflexivity.
Defined.

Lemma build_map_draws_every_row_witness :
  exists m w',
    @build_map Sample.repr 0 MoreSamples.world_located = (Ok tt, w')
    /\ length m = 4%nat
    /\ m !! 2%nat
       = Some (Marker (Fin 50.8466, Fin 4.3528) (py "<b>Beta</b><br>Rue B 2"))
    /\ m !! 3%nat
       = Some (PolyLine [(Fin 50.8466, Fin 4.3528); (Fin 50.8466, Fin 4.3528)]
                 (py "blue") 1).
Proof.
  destruct (@build_map_draws_every_row Sample.repr MoreSamples.world_located 0
              MoreSamples.located
              [VFloat (Fin 50.7219); VFloat (Fin 50.8466)]
              [VFloat (Fin 4.3997); VFloat (Fin 4.3528)]
              [VStr (py "Alpha"); VStr (py "Beta")]
              [VStr (py "Rue A 1"); VStr (py "Rue B 2")])
    as (m & Hrun & Hlen & Hrows).
  - reflexivity.
  - holds_by_decision.
  - vm_compute. reflexivity.
  - vm_compute. reflexivity.
  - vm_compute. reflexivity.
  - vm_compute. reflexivity.
  - repeat constructor; eexists; reflexivity.
  - repeat constructor; eexists; reflexivity.
  - repeat constructor.
  - repeat constructor.
  - exists m. eexists. split; [exact Hrun|]. split; [exact Hlen|].
    destruct (Hrows 1%nat 50.8466%Q 4.3528%Q (VStr (py "Beta")) (VStr (py "Rue B 2")))
      as [Hmarker Hline]; [reflexivity..|].
    split; [|exact Hline]. etrans; [exact Hmarker|]. vm_compute. reflexivity.
Defined.

Lemma build_map_needs_columns_only_for_rows_witness :
  @build_map Sample.repr 1 MoreSamples.world_nameless
  = (Ok tt,
     mkWorld ∅ [MoreSamples.nameless; MoreSamples.blank]
       [folium_static (mkMap (Fin 50.8466, Fin 4.3528) 8 []) 700 500])
  /\ @build_map Sample.repr 0 MoreSamples.world_nameless
     = (Raise (KeyError (py "Name")), MoreSamples.world_nameless).
Proof.
  split.
  - destruct (@build_map_needs_columns_only_for_rows Sample.repr
                MoreSamples.world_nameless 1 MoreSamples.blank [] [])
      as [Hempty _].
    + reflexivity.
    + holds_by_decision.
    + apply Hempty. reflexivity.
  - destruct (@build_map_needs_columns_only_for_rows Sample.repr
                MoreSamples.world_nameless 0 MoreSamples.nameless
                [VFloat (Fin 50.7219)] [VFloat (Fin 4.3997)])
      as [_ Hrows].
    + reflexivity.
    + holds_by_decision.
    + destruct Hrows as [Hname _].
      * simpl. lia.
      * vm_compute. reflexivity.
      * vm_compute. reflexivity.
      * apply Hname. vm_compute. reflexivity.
Defined.

Lemma main_renders_views_in_order_witness :
  exists w' m,
    @main Sample.repr Sample.script Sample.world_local = (Ok tt, w')
    /\ length (heap w') = 3%nat
    /\ length (page w') = 8%nat
    /\ page w' !! 7%nat
       = Some (folium_static (mkMap (Fin 50.8466, Fin 4.3528) 8 m) 700 500)
    /\ length m = 8%nat.
Proof.
  destruct (@main_renders_views_in_order Sample.repr Sample.world_local Sample.script
              Sample.beside Sample.table Sample.profit_texts Sample.localities
              [VStr (py "Alpha"); VStr (py "Beta"); VStr (py "Gamma"); VStr (py "Delta")]
              [VStr (py "Rue A 1"); VStr (py "Rue B 2"); VFloat NaN; VStr (py "Rue D 4")])
    as (w' & m & Hrun & _ & Hheap & Hpage & Hlen).
  - vm_compute. reflexivity.
  - vm_compute. reflexivity.
  - holds_by_decision.
  - vm_compute. reflexivity.
  - vm_compute. reflexivity.
  - vm_compute. reflexivity.
  - vm_compute. reflexivity.
  - exists w', m. split; [exact Hrun|]. rewrite Hheap, Hpage.
    split; [reflexivity|]. split; [reflexivity|]. split; [reflexivity|]. exact Hlen.
Defined.

Lemma main_stops_before_views_on_bad_table_witness :
  (@main Sample.repr Sample.script (MoreSamples.world_of (File None))).1
  = Raise (ReadError Sample.beside)
  /\ (@main Sample.repr Sample.script
        (MoreSamples.world_of (File (Some MoreSamples.names_only)))).1
     = Raise (KeyError profit_label)
  /\ (@main Sample.repr Sample.script
        (MoreSamples.world_of (File (Some MoreSamples.no_locality)))).1
     = Raise (KeyError (py "Locality")).
Proof.
  split; [|split].
  - destruct (@main_stops_before_views_on_bad_table Sample.repr
                (MoreSamples.world_of (File None)) Sample.script Sample.beside)
      as (Hgarbage & _).
    + vm_compute. reflexivity.
    + rewrite Hgarbage; [reflexivity|]. vm_compute. reflexivity.
  - destruct (@main_stops_before_views_on_bad_table Sample.repr
                (MoreSamples.world_of (File (Some MoreSamples.names_only)))
                Sample.script Sample.beside)
      as (_ & Hprofit & _).
    + vm_compute. reflexivity.
    + rewrite (Hprofit MoreSamples.names_only); [reflexivity| |];
        vm_compute; reflexivity.
  - destruct (@main_stops_before_views_on_bad_table Sample.repr
                (MoreSamples.world_of (File (Some MoreSamples.no_locality)))
                Sample.script Sample.beside)
      as (_ & _ & Hlocality).
    + vm_compute. reflexivity.
    + rewrite (Hlocality MoreSamples.no_locality [VStr (py "€1,234 ")]);
        [reflexivity | vm_compute; reflexivity | holds_by_decision
        | vm_compute; reflexivity | vm_compute; reflexivity].
Defined.

Lemma main_without_address_stops_at_map_witness :
  exists w',
    @main Sample.repr Sample.script
      (MoreSamples.world_of (File (Some MoreSamples.no_address)))
    = (Raise (KeyError (py "Address")), w')
    /\ length (page w') = 7%nat
    /\ page w' !! 6%nat = Some (header (py "Map of Agents with Connectors")).
Proof.
  destruct (@main_without_address_stops_at_map Sample.repr
              (MoreSamples.world_of (File (Some MoreSamples.no_address)))
              Sample.script Sample.beside MoreSamples.no_address
              [VStr (py "€1,234 ")] [VStr (py "Waterloo")] [VStr (py "Alpha")])
    as (w' & Hrun & Hpage).
  - vm_compute. reflexivity.
  - vm_compute. reflexivity.
  - holds_by_decision.
  - simpl. lia.
  - vm_compute. reflexivity.
  - vm_compute. reflexivity.
  - vm_compute. reflexivity.
  - vm_compute. reflexivity.
  - exists w'. split; [exact Hrun|]. rewrite Hpage. split; reflexivity.
Defined.

Lemma build_map_stops_on_missing_coordinate_witness :
  @build_map Sample.repr 0 MoreSamples.world_gap
  = (Raise ValueError, MoreSamples.world_gap).
Proof.
  apply (@build_map_stops_on_missing_coordinate Sample.repr MoreSamples.world_gap 0
           MoreSamples.gap
           [VFloat (Fin 50.7219); VFloat NaN]
           [VFloat (Fin 4.3997); VFloat (Fin 4.3528)]
           [VStr (py "Alpha"); VStr (py "Beta")]
           [VStr (py "Rue A 1"); VStr (py "Rue B 2")] 1).
  - reflexivity.
  - holds_by_decision.
  - vm_compute. reflexivity.
  - vm_compute. reflexivity.
  - vm_compute. reflexivity.
  - vm_compute. reflexivity.
  - repeat constructor; eexists; reflexivity.
  - repeat constructor; eexists; reflexivity.
  - left. reflexivity.
Defined.
